(** * Tadaima: lesson persistence layer and lesson manager

    A shallow embedding of [LessonsDatabase.cpp] (the SQLite storage
    backend), of the [Database] interface the [LessonManager] is written
    against, of the manager itself and of the quiz flashcard, followed by
    the properties the specification states about them. *)

From Stdlib Require Import ZArith List String Ascii Bool Lia DecimalString.
Import ListNotations.

Local Open Scope Z_scope.
Local Open Scope list_scope.

Infix "+++" := String.append (right associativity, at level 60).

(** ** C and C++ values *)

(** [static_cast<int>] of a 64-bit value, and [sqlite3_column_int]: the
    low 32 bits, read as a signed [int]. *)
Definition static_cast_int (z : Z) : Z := (z + 2 ^ 31) mod 2 ^ 32 - 2 ^ 31.

Definition INT_MAX : Z := 2 ^ 31 - 1.

(** [std::to_string(int)]. *)
Definition to_string (n : Z) : string := NilZero.string_of_int (Z.to_int n).

(** [s.c_str()] handed to [sqlite3_bind_text(..., -1, ...)], and
    [std::string] built from a C string: the characters before the first
    NUL. *)
Fixpoint c_str (s : string) : string :=
  match s with
  | EmptyString => EmptyString
  | String c rest => if Ascii.eqb c zero then EmptyString else String c (c_str rest)
  end.

(** ** Domain model ([lessons/Lesson.h]) *)

Record Word := mkWord {
  Word_id : Z;
  kana : string;
  translation : string;
  romaji : string;
  exampleSentence : string;
  tags : list string
}.

Record Lesson := mkLesson {
  Lesson_id : Z;
  mainName : string;
  subName : string;
  words : list Word
}.

(** ** Logger ([Tools/Logger.h]): a sink of levelled messages *)

Inductive LogLevel := INFO | PROBLEM.

Definition Logger := list (string * LogLevel).

Definition log (message : string) (level : LogLevel) (l : Logger) : Logger :=
  l ++ [(message, level)].

(** ** The SQLite store

    Three tables as created by [LessonsDatabase::initDatabase]; a table is
    the list of its rows in rowid order, which is the order a [SELECT]
    without [ORDER BY] steps through them.  The schema declares the two
    foreign keys without an [ON DELETE] action and the program never
    issues [PRAGMA foreign_keys], so the engine does not act on them. *)

Record lessons_row := mk_lessons_row {
  lessons_id : Z;
  lessons_main_name : string;
  lessons_sub_name : string
}.

Record words_row := mk_words_row {
  words_id : Z;
  words_lesson_id : Z;
  words_kana : string;
  words_translation : string;
  (* the two columns the schema leaves nullable: None is NULL *)
  words_romaji : option string;
  words_example_sentence : option string
}.

Record tags_row := mk_tags_row {
  tags_id : Z;
  tags_word_id : Z;
  tags_tag : string
}.

Record sqlite3 := mk_sqlite3 {
  lessons : list lessons_row;
  words_table : list words_row;
  tags_table : list tags_row;
  (* sqlite_sequence: the largest rowid each AUTOINCREMENT table has held *)
  seq_lessons : Z;
  seq_words : Z;
  seq_tags : Z;
  (* what sqlite3_last_insert_rowid returns *)
  last_insert_rowid : Z
}.

(** The rowid an [INTEGER PRIMARY KEY AUTOINCREMENT] column gives to a new
    row: one more than the largest rowid the table holds or has held. *)
Definition max_rowid (ids : list Z) : Z := fold_right Z.max 0 ids.

Definition next_rowid (seq : Z) (ids : list Z) : Z :=
  Z.max seq (max_rowid ids) + 1.

(** The statements of [LessonsDatabase.cpp], with their [?] parameters as
    arguments, as the engine runs them when [sqlite3_step] succeeds. *)

(* INSERT INTO lessons (main_name, sub_name) VALUES (?, ?); *)
Definition INSERT_INTO_lessons (main_name sub_name : string) (d : sqlite3) : sqlite3 :=
  let rowid := next_rowid (seq_lessons d) (map lessons_id (lessons d)) in
  {| lessons := lessons d ++ [mk_lessons_row rowid main_name sub_name];
     words_table := words_table d;
     tags_table := tags_table d;
     seq_lessons := rowid;
     seq_words := seq_words d;
     seq_tags := seq_tags d;
     last_insert_rowid := rowid |}.

(* INSERT INTO words (lesson_id, kana, translation, romaji, example_sentence)
   VALUES (?, ?, ?, ?, ?); *)
Definition INSERT_INTO_words (lesson_id : Z) (kana translation romaji example_sentence : string)
    (d : sqlite3) : sqlite3 :=
  let rowid := next_rowid (seq_words d) (map words_id (words_table d)) in
  {| lessons := lessons d;
     words_table := words_table d ++
       [mk_words_row rowid lesson_id kana translation (Some romaji) (Some example_sentence)];
     tags_table := tags_table d;
     seq_lessons := seq_lessons d;
     seq_words := rowid;
     seq_tags := seq_tags d;
     last_insert_rowid := rowid |}.

(* INSERT INTO tags (word_id, tag) VALUES (?, ?); *)
Definition INSERT_INTO_tags (word_id : Z) (tag : string) (d : sqlite3) : sqlite3 :=
  let rowid := next_rowid (seq_tags d) (map tags_id (tags_table d)) in
  {| lessons := lessons d;
     words_table := words_table d;
     tags_table := tags_table d ++ [mk_tags_row rowid word_id tag];
     seq_lessons := seq_lessons d;
     seq_words := seq_words d;
     seq_tags := rowid;
     last_insert_rowid := rowid |}.

(* UPDATE lessons SET main_name = ?, sub_name = ? WHERE id = ?; *)
Definition UPDATE_lessons (main_name sub_name : string) (id : Z) (d : sqlite3) : sqlite3 :=
  {| lessons := map (fun r => if lessons_id r =? id
                              then mk_lessons_row (lessons_id r) main_name sub_name
                              else r) (lessons d);
     words_table := words_table d;
     tags_table := tags_table d;
     seq_lessons := seq_lessons d;
     seq_words := seq_words d;
     seq_tags := seq_tags d;
     last_insert_rowid := last_insert_rowid d |}.

(* UPDATE words SET kana = ?, translation = ?, romaji = ?, example_sentence = ?
   WHERE id = ?; *)
Definition UPDATE_words (kana translation romaji example_sentence : string) (id : Z)
    (d : sqlite3) : sqlite3 :=
  {| lessons := lessons d;
     words_table := map (fun r => if words_id r =? id
                                  then mk_words_row (words_id r) (words_lesson_id r)
                                         kana translation (Some romaji)
                                         (Some example_sentence)
                                  else r) (words_table d);
     tags_table := tags_table d;
     seq_lessons := seq_lessons d;
     seq_words := seq_words d;
     seq_tags := seq_tags d;
     last_insert_rowid := last_insert_rowid d |}.

(* DELETE FROM lessons WHERE id = ?; *)
Definition DELETE_FROM_lessons (id : Z) (d : sqlite3) : sqlite3 :=
  {| lessons := filter (fun r => negb (lessons_id r =? id)) (lessons d);
     words_table := words_table d;
     tags_table := tags_table d;
     seq_lessons := seq_lessons d;
     seq_words := seq_words d;
     seq_tags := seq_tags d;
     last_insert_rowid := last_insert_rowid d |}.

(* DELETE FROM words WHERE id = ?; *)
Definition DELETE_FROM_words (id : Z) (d : sqlite3) : sqlite3 :=
  {| lessons := lessons d;
     words_table := filter (fun r => negb (words_id r =? id)) (words_table d);
     tags_table := tags_table d;
     seq_lessons := seq_lessons d;
     seq_words := seq_words d;
     seq_tags := seq_tags d;
     last_insert_rowid := last_insert_rowid d |}.

(* SELECT ... FROM words WHERE lesson_id = ?; *)
Definition SELECT_words_WHERE_lesson_id (lesson_id : Z) (d : sqlite3) : list words_row :=
  filter (fun r => words_lesson_id r =? lesson_id) (words_table d).

(* SELECT tag FROM tags WHERE word_id = ?; *)
Definition SELECT_tags_WHERE_word_id (word_id : Z) (d : sqlite3) : list tags_row :=
  filter (fun r => tags_word_id r =? word_id) (tags_table d).

(** How the engine answers one data-changing statement: the statement is
    not prepared, or it is prepared and [sqlite3_step] returns an error
    (with [sqlite3_errmsg]), or [sqlite3_step] returns [SQLITE_DONE]. *)
Inductive Outcome :=
| PrepareFails
| StepFails (errmsg : string)
| Done.

(* sqlite3_prepare_v2(...) == SQLITE_OK *)
Definition prepare_ok (o : Outcome) : bool :=
  match o with PrepareFails => false | _ => true end.

(* sqlite3_step(stmt) != SQLITE_DONE, with sqlite3_errmsg(db) *)
Definition step_error (o : Outcome) : option string :=
  match o with StepFails errmsg => Some errmsg | _ => None end.

(** How the engine answers one [SELECT]: not prepared, or prepared and
    [sqlite3_step] returns [SQLITE_ROW] for the first [n] rows and
    something else afterwards, or for every row. *)
Inductive Scan :=
| ScanPrepareFails
| ScanStops (n : nat)
| ScanDone.

(** The rows the [while( sqlite3_step(stmt) == SQLITE_ROW )] loop visits;
    none when the statement is not prepared. *)
Definition rows_seen {R : Type} (s : Scan) (rows : list R) : list R :=
  match s with
  | ScanPrepareFails => []
  | ScanStops n => firstn n rows
  | ScanDone => rows
  end.

(** The engine's answers to the statements of one read: the query over
    [lessons], the query over [words] for a lesson id, the query over
    [tags] for a word id. *)
Record Engine := mkEngine {
  on_lessons : Scan;
  on_words : Z -> Scan;
  on_tags : Z -> Scan
}.

Definition healthy : Engine :=
  {| on_lessons := ScanDone; on_words := fun _ => ScanDone; on_tags := fun _ => ScanDone |}.

(** A loop whose body has no defined result on some rows: the results of
    all its turns, in order, when every turn has one. *)
Fixpoint all_or_none {A B : Type} (body : A -> option B) (rows : list A) : option (list B) :=
  match rows with
  | [] => Some []
  | r :: rest =>
      match body r with
      | None => None
      | Some b =>
          match all_or_none body rest with
          | None => None
          | Some bs => Some (b :: bs)
          end
      end
  end.

(** ** [LessonsDatabase] *)

Module LessonsDatabase.

(** The object: the connection [db] and the logger [m_logger]. *)
Record t := mk {
  db : sqlite3;
  m_logger : Logger
}.

Definition with_log (message : string) (level : LogLevel) (self : t) : t :=
  {| db := db self; m_logger := log message level (m_logger self) |}.

Definition with_db (d : sqlite3) (self : t) : t :=
  {| db := d; m_logger := m_logger self |}.

Definition addLesson (o : Outcome) (mainName subName : string) (self : t) : Z * t :=
  if prepare_ok o then
    match step_error o with
    | Some errmsg =>
        (-1, with_log ("Database: SQL error while adding lesson: " +++ errmsg) PROBLEM self)
    | None =>
        let self := with_db (INSERT_INTO_lessons (c_str mainName) (c_str subName) (db self)) self in
        let lessonId := static_cast_int (last_insert_rowid (db self)) in
        (lessonId,
         with_log ("Database: Added lesson with ID " +++ to_string lessonId
                   +++ ", mainName: " +++ mainName +++ ", subName: " +++ subName) INFO self)
    end
  else (-1, self).

Definition addWord (o : Outcome) (lessonId : Z) (word : Word) (self : t) : Z * t :=
  if prepare_ok o then
    match step_error o with
    | Some errmsg =>
        (-1, with_log ("Database: SQL error while adding word: " +++ errmsg) PROBLEM self)
    | None =>
        let self := with_db (INSERT_INTO_words lessonId (c_str (kana word))
                               (c_str (translation word)) (c_str (romaji word))
                               (c_str (exampleSentence word)) (db self)) self in
        let wordId := static_cast_int (last_insert_rowid (db self)) in
        (wordId,
         with_log ("Database: Added word with ID " +++ to_string wordId
                   +++ " to lesson ID " +++ to_string lessonId) INFO self)
    end
  else (-1, self).

Definition addTag (o : Outcome) (wordId : Z) (tag : string) (self : t) : t :=
  if prepare_ok o then
    let self :=
      match step_error o with
      | Some errmsg => with_log ("Database: SQL error while adding tag: " +++ errmsg) PROBLEM self
      | None => with_db (INSERT_INTO_tags wordId (c_str tag) (db self)) self
      end in
    with_log ("Database: Added tag '" +++ tag +++ "' to word ID " +++ to_string wordId) INFO self
  else self.

Definition updateLesson (o : Outcome) (lessonId : Z) (newMainName newSubName : string)
    (self : t) : t :=
  if prepare_ok o then
    let self :=
      match step_error o with
      | Some errmsg =>
          with_log ("Database: SQL error while updating lesson: " +++ errmsg) PROBLEM self
      | None =>
          with_db (UPDATE_lessons (c_str newMainName) (c_str newSubName) lessonId (db self)) self
      end in
    with_log ("Database: Updated lesson ID " +++ to_string lessonId +++ " to mainName: "
              +++ newMainName +++ ", subName: " +++ newSubName) INFO self
  else self.

Definition updateWord (o : Outcome) (wordId : Z) (updatedWord : Word) (self : t) : t :=
  if prepare_ok o then
    let self :=
      match step_error o with
      | Some errmsg =>
          with_log ("Database: SQL error while updating word: " +++ errmsg) PROBLEM self
      | None =>
          with_db (UPDATE_words (c_str (kana updatedWord)) (c_str (translation updatedWord))
                     (c_str (romaji updatedWord)) (c_str (exampleSentence updatedWord))
                     wordId (db self)) self
      end in
    with_log ("Database: Updated word ID " +++ to_string wordId) INFO self
  else self.

Definition deleteLesson (o : Outcome) (lessonId : Z) (self : t) : t :=
  if prepare_ok o then
    let self :=
      match step_error o with
      | Some errmsg =>
          with_log ("Database: SQL error while deleting lesson: " +++ errmsg) PROBLEM self
      | None => with_db (DELETE_FROM_lessons lessonId (db self)) self
      end in
    with_log ("Database: Deleted lesson ID " +++ to_string lessonId) INFO self
  else self.

Definition deleteWord (o : Outcome) (wordId : Z) (self : t) : t :=
  if prepare_ok o then
    let self :=
      match step_error o with
      | Some errmsg =>
          with_log ("Database: SQL error while deleting word: " +++ errmsg) PROBLEM self
      | None => with_db (DELETE_FROM_words wordId (db self)) self
      end in
    with_log ("Database: Deleted word ID " +++ to_string wordId) INFO self
  else self.

Definition getLessonNames (s : Scan) (self : t) : list string :=
  map (fun r => c_str (lessons_main_name r) +++ " - " +++ c_str (lessons_sub_name r))
      (rows_seen s (lessons (db self))).

(** One turn of the [while] loop of [getWordsInLesson]: the word built
    from a row of [words], with the tags its inner loop collects.  For a
    NULL value [sqlite3_column_text] returns the null pointer, and
    assigning it to a [std::string] is undefined (in practice the process
    dies): the turn has a result only when the row holds a text in
    [romaji] and in [example_sentence], the two columns the schema leaves
    nullable.  [None] is the turn that has no result. *)
Definition word_of_row (e : Engine) (self : t) (r : words_row) : option Word :=
  let id := static_cast_int (words_id r) in
  match words_romaji r, words_example_sentence r with
  | Some romaji_text, Some example_sentence_text =>
      Some {| Word_id := id;
              kana := c_str (words_kana r);
              translation := c_str (words_translation r);
              romaji := c_str romaji_text;
              exampleSentence := c_str example_sentence_text;
              tags := map (fun t => c_str (tags_tag t))
                          (rows_seen (on_tags e id)
                             (SELECT_tags_WHERE_word_id id (db self))) |}
  | _, _ => None
  end.

(** [getWordsInLesson]: it has a result when every turn of its loop has
    one, that is when no row it visits holds NULL in [romaji] or
    [example_sentence]. *)
Definition getWordsInLesson (e : Engine) (lessonId : Z) (self : t) : option (list Word) :=
  all_or_none (word_of_row e self)
    (rows_seen (on_words e lessonId) (SELECT_words_WHERE_lesson_id lessonId (db self))).

(** One turn of the [while] loop of [getAllLessons]. *)
Definition lesson_of_row (e : Engine) (self : t) (r : lessons_row) : option Lesson :=
  let id := static_cast_int (lessons_id r) in
  match getWordsInLesson e id self with
  | Some lesson_words =>
      Some {| Lesson_id := id;
              mainName := c_str (lessons_main_name r);
              subName := c_str (lessons_sub_name r);
              words := lesson_words |}
  | None => None
  end.

(** [getAllLessons]: it has a result when [getWordsInLesson] has one for
    every lesson row it visits. *)
Definition getAllLessons (e : Engine) (self : t) : option (list Lesson) :=
  all_or_none (lesson_of_row e self) (rows_seen (on_lessons e) (lessons (db self))).

(** A freshly initialised database file. *)
Definition empty : t :=
  {| db := {| lessons := []; words_table := []; tags_table := [];
              seq_lessons := 0; seq_words := 0; seq_tags := 0;
              last_insert_rowid := 0 |};
     m_logger := [] |}.

End LessonsDatabase.

(** ** State passing

    The backend is an object the manager holds by reference and calls in
    sequence: a computation takes the backend's state and returns a result
    with the state after it. *)

Definition State (S A : Type) : Type := S -> A * S.

Definition ret {S A : Type} (a : A) : State S A := fun s => (a, s).

Definition bind {S A B : Type} (m : State S A) (k : A -> State S B) : State S B :=
  fun s => let (a, s') := m s in k a s'.

Declare Scope state_scope.
Delimit Scope state_scope with state.
Notation "x <- m ;; k" := (bind m (fun x => k))
  (at level 100, m at next level, right associativity) : state_scope.
Notation "m ;; k" := (bind m (fun _ => k))
  (at level 100, right associativity) : state_scope.
Local Open Scope state_scope.

(** A range-based [for] whose body returns nothing. *)
Fixpoint for_each {S X : Type} (xs : list X) (body : X -> State S unit) : State S unit :=
  match xs with
  | [] => ret tt
  | x :: xs' => body x ;; for_each xs' body
  end.

(** Lifting of a [const] method. *)
Definition const_method {S A : Type} (f : S -> A) : State S A := fun s => (f s, s).

(** ** The [Database] interface *)

Module Database.

(** Modelled from the spec: the abstract backend interface (Database.h,
    which [LessonsDatabase] implements and [MockDatabase] mocks) is
    missing; its operations are those of the storage backend contract,
    with the signatures [LessonsDatabase.cpp] gives them. *)
Class Database (DB : Type) := {
  addLesson : string -> string -> State DB Z;
  addWord : Z -> Word -> State DB Z;
  addTag : Z -> string -> State DB unit;
  updateLesson : Z -> string -> string -> State DB unit;
  updateWord : Z -> Word -> State DB unit;
  deleteLesson : Z -> State DB unit;
  deleteWord : Z -> State DB unit;
  getLessonNames : State DB (list string);
  getWordsInLesson : Z -> State DB (list Word);
  getAllLessons : State DB (list Lesson)
}.

End Database.

(** ** [LessonManager] *)

Module LessonManager.
Section WithDatabase.

Context {DB : Type} {m_database : Database.Database DB}.

(** Modelled from the spec: lessons/LessonManager.cpp is missing (only
    its test is present).  [addLesson] calls the backend's [addLesson],
    then for each word in order [addWord] with the lesson id, then for
    each tag of that word in order [addTag] with the word id, and returns
    the lesson id. *)
Definition addLesson (lesson : Lesson) : State DB Z :=
  lessonId <- Database.addLesson (mainName lesson) (subName lesson) ;;
  for_each (words lesson) (fun word =>
    wordId <- Database.addWord lessonId word ;;
    for_each (tags word) (fun tag => Database.addTag wordId tag)) ;;
  ret lessonId.

(** Modelled from the spec: lessons/LessonManager.cpp is missing.
    [addLessons] applies [addLesson] to each lesson, in order. *)
Definition addLessons (lessons : list Lesson) : State DB unit :=
  for_each lessons (fun lesson => addLesson lesson ;; ret tt).

(** Modelled from the spec: lessons/LessonManager.cpp is missing.
    [renameLessons] calls [updateLesson(id, mainName, subName)] for each
    lesson. *)
Definition renameLessons (lessons : list Lesson) : State DB unit :=
  for_each lessons (fun lesson =>
    Database.updateLesson (Lesson_id lesson) (mainName lesson) (subName lesson)).

(** Modelled from the spec: lessons/LessonManager.cpp is missing.
    [getAllLessons] is a pass-through read. *)
Definition getAllLessons : State DB (list Lesson) := Database.getAllLessons.

End WithDatabase.
End LessonManager.

(** ** Observing the calls a backend receives

    A backend call with its arguments and, where it returns one, the value
    the backend returned. *)
Inductive Call :=
| CallAddLesson (mainName subName : string) (returned : Z)
| CallAddWord (lessonId : Z) (word : Word) (returned : Z)
| CallAddTag (wordId : Z) (tag : string)
| CallUpdateLesson (lessonId : Z) (newMainName newSubName : string)
| CallUpdateWord (wordId : Z) (updatedWord : Word)
| CallDeleteLesson (lessonId : Z)
| CallDeleteWord (wordId : Z)
| CallGetLessonNames (returned : list string)
| CallGetWordsInLesson (lessonId : Z) (returned : list Word)
| CallGetAllLessons (returned : list Lesson).

(** Runs [m] on the backend and appends the call to the trace. *)
Definition recorded {DB A : Type} (m : State DB A) (call : A -> Call) : State (DB * list Call) A :=
  fun s => let (a, b') := m (fst s) in (a, (b', snd s ++ [call a])).

(** Any backend, with every call it receives written to a trace. *)
#[global] Instance Recorder (DB : Type) {backend : Database.Database DB}
  : Database.Database (DB * list Call) := {|
  Database.addLesson := fun mainName subName =>
    recorded (Database.addLesson mainName subName) (CallAddLesson mainName subName);
  Database.addWord := fun lessonId word =>
    recorded (Database.addWord lessonId word) (CallAddWord lessonId word);
  Database.addTag := fun wordId tag =>
    recorded (Database.addTag wordId tag) (fun _ => CallAddTag wordId tag);
  Database.updateLesson := fun lessonId newMainName newSubName =>
    recorded (Database.updateLesson lessonId newMainName newSubName)
             (fun _ => CallUpdateLesson lessonId newMainName newSubName);
  Database.updateWord := fun wordId updatedWord =>
    recorded (Database.updateWord wordId updatedWord) (fun _ => CallUpdateWord wordId updatedWord);
  Database.deleteLesson := fun lessonId =>
    recorded (Database.deleteLesson lessonId) (fun _ => CallDeleteLesson lessonId);
  Database.deleteWord := fun wordId =>
    recorded (Database.deleteWord wordId) (fun _ => CallDeleteWord wordId);
  Database.getLessonNames := recorded Database.getLessonNames CallGetLessonNames;
  Database.getWordsInLesson := fun lessonId =>
    recorded (Database.getWordsInLesson lessonId) (CallGetWordsInLesson lessonId);
  Database.getAllLessons := recorded Database.getAllLessons CallGetAllLessons
|}.

(** ** [MockDatabase], as [LessonManagerTest.cpp] scripts it *)

Module MockDatabase.

(** The ids the coming [addLesson] and [addWord] calls return
    ([WillOnce(Return(n))], in call order), and the lessons
    [getAllLessons] returns.  An unscripted call returns the default
    value of its type. *)
Record t := mk {
  ids : list Z;
  all_lessons : list Lesson
}.

Definition next_id : State t Z :=
  fun self =>
    match ids self with
    | [] => (0, self)
    | n :: rest => (n, {| ids := rest; all_lessons := all_lessons self |})
    end.

#[global] Instance MockDatabase_Database : Database.Database t := {|
  Database.addLesson := fun _ _ => next_id;
  Database.addWord := fun _ _ => next_id;
  Database.addTag := fun _ _ => ret tt;
  Database.updateLesson := fun _ _ _ => ret tt;
  Database.updateWord := fun _ _ => ret tt;
  Database.deleteLesson := fun _ => ret tt;
  Database.deleteWord := fun _ => ret tt;
  Database.getLessonNames := ret [];
  Database.getWordsInLesson := fun _ => ret [];
  Database.getAllLessons := const_method all_lessons
|}.

End MockDatabase.

(** The calls the claim about [addLesson] lists: one [addLesson], then for
    each word one [addWord] with the lesson id, followed by one [addTag]
    per tag with the id returned for that word. *)
Definition word_calls (lessonId : Z) (word : Word) (wordId : Z) : list Call :=
  CallAddWord lessonId word wordId :: map (CallAddTag wordId) (tags word).

Definition words_calls (lessonId : Z) (ws : list Word) (wordIds : list Z) : list Call :=
  List.concat (map (fun p => word_calls lessonId (fst p) (snd p)) (combine ws wordIds)).

Definition lesson_calls (lesson : Lesson) (lessonId : Z) (wordIds : list Z) : list Call :=
  CallAddLesson (mainName lesson) (subName lesson) lessonId
    :: words_calls lessonId (words lesson) wordIds.

(** The lessons of the tests in [LessonManagerTest.cpp]. *)
Module LessonManagerTest.

Definition word1 : Word :=
  {| Word_id := 0; kana := "as"; translation := "translation1"; romaji := "romaji1";
     exampleSentence := "example1"; tags := ["tag1"%string] |}.

Definition word2 : Word :=
  {| Word_id := 0; kana := "qwe"; translation := "translation2"; romaji := "romaji2";
     exampleSentence := "example2"; tags := ["tag2"%string] |}.

Definition lesson : Lesson :=
  {| Lesson_id := 0; mainName := "Main Name"; subName := "Sub Name"; words := [word1; word2] |}.

Definition bare (tag : string) : Word :=
  {| Word_id := 0; kana := ""; translation := ""; romaji := ""; exampleSentence := "";
     tags := [tag] |}.

Definition lesson1 : Lesson :=
  {| Lesson_id := 0; mainName := "Main Name 1"; subName := "Sub Name 1";
     words := [bare "tag1"] |}.

Definition lesson2 : Lesson :=
  {| Lesson_id := 0; mainName := "Main Name 2"; subName := "Sub Name 2";
     words := [bare "tag2"] |}.

Definition renamed : list Lesson :=
  [ {| Lesson_id := 1; mainName := "Main Name 1"; subName := "Sub Name 1"; words := [] |};
    {| Lesson_id := 2; mainName := "Main Name 2"; subName := "Sub Name 2"; words := [] |} ].

Definition mock (ids : list Z) (ls : list Lesson) : MockDatabase.t * list Call :=
  ({| MockDatabase.ids := ids; MockDatabase.all_lessons := ls |}, []).

(** The SQLite store after the calls the manager makes for the first test
    lesson, on a fresh database: one lesson, its two words, one tag
    each. *)
Definition populated : LessonsDatabase.t :=
  let (lessonId, s0) :=
    LessonsDatabase.addLesson Done (mainName lesson) (subName lesson) LessonsDatabase.empty in
  let (wordId1, s1) := LessonsDatabase.addWord Done lessonId word1 s0 in
  let s2 := LessonsDatabase.addTag Done wordId1 "tag1" s1 in
  let (wordId2, s3) := LessonsDatabase.addWord Done lessonId word2 s2 in
  LessonsDatabase.addTag Done wordId2 "tag2" s3.

(** The test lesson as that store holds it, with the ids it was given. *)
Definition stored_lesson : Lesson :=
  {| Lesson_id := 1; mainName := "Main Name"; subName := "Sub Name";
     words := [ {| Word_id := 1; kana := "as"; translation := "translation1";
                   romaji := "romaji1"; exampleSentence := "example1";
                   tags := ["tag1"%string] |};
                {| Word_id := 2; kana := "qwe"; translation := "translation2";
                   romaji := "romaji2"; exampleSentence := "example2";
                   tags := ["tag2"%string] |} ] |}.

Definition stored : list Lesson := [stored_lesson].

(** The same store after another program has set the romaji of the first
    word to NULL, which the schema allows. *)
Definition populated_with_null : LessonsDatabase.t :=
  let d := LessonsDatabase.db populated in
  LessonsDatabase.with_db
    {| lessons := lessons d;
       words_table :=
         [ mk_words_row 1 1 "as" "translation1" None (Some "example1"%string);
           mk_words_row 2 1 "qwe" "translation2" (Some "romaji2"%string)
             (Some "example2"%string) ];
       tags_table := tags_table d;
       seq_lessons := seq_lessons d; seq_words := seq_words d; seq_tags := seq_tags d;
       last_insert_rowid := last_insert_rowid d |}
    populated.

End LessonManagerTest.

(** ** Quiz flashcards and the quiz session engine *)

Module quiz.

(** Modelled from the spec: QuizType.h is missing; a word type is one of
    BaseWord, Kana, Romaji. *)
Inductive WordType := BaseWord | Kana | Romaji.

(** [Flashcard.h] (a draft: the whole file is commented out). *)
Record Flashcard := mkFlashcard {
  word : Word;
  lessonId : Z;
  badAttempts : Z;
  goodAttemps : Z;
  learned : bool;
  wordType : WordType;
  correctWordType : WordType
}.

(** The [switch] both methods of the draft share: the field of the word
    that a word type selects. *)
Definition field (type : WordType) (w : Word) : string :=
  match type with
  | BaseWord => translation w
  | Kana => kana w
  | Romaji => romaji w
  end.

(** [Flashcard::getCorrectWord] as the draft has it: it switches on
    [wordType]. *)
Definition getCorrectWord (flashcard : Flashcard) : string :=
  field (wordType flashcard) (word flashcard).


(** [Flashcard(w, lId, attempts)] with the member initialisers. *)
Definition new_Flashcard (w : Word) (lId attempts : Z) : Flashcard :=
  {| word := w; lessonId := lId; badAttempts := attempts; goodAttemps := 0;
     learned := false; wordType := BaseWord; correctWordType := Romaji |}.

(** Modelled from the spec: the engine's states are missing with the
    engine; a session is idle, in progress or finished. *)
Inductive Status := Idle | InProgress | Finished.

Section Engine.

(** The choices the specification leaves to the implementation, and
    asks to be injected: the ordering of the deck, the sampling of
    distractors from the pool of candidates, the place of the correct
    answer among [n] distractors, and the rule that marks a card as
    learned. *)
Variable shuffle : list Flashcard -> list Flashcard.
Variable sample : Flashcard -> list string -> list string.
Variable place : Flashcard -> nat -> nat.
Variable promote : Flashcard -> bool.

(** Modelled from the spec: the quiz session engine ([quizGame] of
    [QuizWidget.cpp]) is missing.  It holds the lessons it was built
    from, the deck, the cursor, and the options of the current question
    with the index of the correct one. *)
Record VocabularyQuiz := mkQuiz {
  source : list Lesson;
  status : Status;
  deck : list Flashcard;
  cursor : nat;
  options : list string;
  correctAnswerIndex : nat
}.

(** Modelled from the spec: the engine's choice of distractors is
    missing.  The options of a question are the correct answer and
    distractors drawn from the other flashcards' corresponding field,
    unique and different from the correct answer.  The correct answer of
    a card is what the flashcard's own resolver, [getCorrectWord],
    returns for it, and the corresponding field of another card is the
    field that resolver reads. *)
Definition distractors (cards : list Flashcard) (card : Flashcard) : list string :=
  let correct := getCorrectWord card in
  let differs := fun s => negb (String.eqb s correct) in
  let pool :=
    nodup string_dec
      (filter differs (map (fun other => field (wordType card) (word other)) cards)) in
  nodup string_dec (filter differs (sample card pool)).

(** Modelled from the spec: the engine's construction of a question is
    missing.  The options are the distractors with the correct answer
    among them, and the index of the correct answer is the place it was
    given. *)
Definition ask (q : VocabularyQuiz) (card : Flashcard) : VocabularyQuiz :=
  let ds := distractors (deck q) card in
  let index := Nat.min (place card (List.length ds)) (List.length ds) in
  {| source := source q; status := InProgress; deck := deck q; cursor := cursor q;
     options := firstn index ds ++ getCorrectWord card :: skipn index ds;
     correctAnswerIndex := index |}.

(** Modelled from the spec: the engine's move to the next question is
    missing.  It asks the card under the cursor, or finishes when the
    cursor has run off the deck. *)
Definition present (q : VocabularyQuiz) : VocabularyQuiz :=
  match nth_error (deck q) (cursor q) with
  | Some card => ask q card
  | None =>
      {| source := source q; status := Finished; deck := deck q; cursor := cursor q;
         options := []; correctAnswerIndex := 0 |}
  end.

(** Modelled from the spec: the constructor leaves the engine [Idle]. *)
Definition create (lessons : list Lesson) : VocabularyQuiz :=
  {| source := lessons; status := Idle; deck := []; cursor := 0; options := [];
     correctAnswerIndex := 0 |}.

(** Modelled from the spec: [start] rebuilds the deck, one flashcard
    per word of the lessons, and resets the progress. *)
Definition start (q : VocabularyQuiz) : VocabularyQuiz :=
  let cards :=
    flat_map (fun lesson => map (fun w => new_Flashcard w (Lesson_id lesson) 0) (words lesson))
             (source q) in
  present {| source := source q; status := InProgress; deck := shuffle cards; cursor := 0;
             options := []; correctAnswerIndex := 0 |}.

(** The label of option [i], as [QuizWidget::draw] shows it and hands it
    to [advance]: ['a' + i]. *)
Definition optionLabel (i : nat) : ascii := ascii_of_nat (nat_of_ascii "a" + i).

(** Modelled from the spec: a correct answer adds one to the good
    attempts and may set [learned] (the rule, which the specification
    leaves open, is [promote]); a wrong one adds one to the bad attempts. *)
Definition record_attempt (correct : bool) (card : Flashcard) : Flashcard :=
  {| word := word card; lessonId := lessonId card;
     badAttempts := if correct then badAttempts card else (badAttempts card + 1)%Z;
     goodAttemps := if correct then (goodAttemps card + 1)%Z else goodAttemps card;
     learned := if correct then promote card || learned card else learned card;
     wordType := wordType card; correctWordType := correctWordType card |}.

(** The list with its element at position [n], if any, replaced by its
    image under [f]. *)
Fixpoint update_nth {X : Type} (n : nat) (f : X -> X) (l : list X) : list X :=
  match l, n with
  | [], _ => []
  | x :: l', O => f x :: l'
  | x :: l', S n' => x :: update_nth n' f l'
  end.

(** Modelled from the spec: [advance] records the outcome against the
    current flashcard and moves the cursor on; outside [InProgress] it
    does nothing. *)
Definition advance (selectedLabel : ascii) (q : VocabularyQuiz) : VocabularyQuiz :=
  match status q with
  | InProgress =>
      let correct := Ascii.eqb selectedLabel (optionLabel (correctAnswerIndex q)) in
      present {| source := source q; status := InProgress;
                 deck := update_nth (cursor q) (record_attempt correct) (deck q);
                 cursor := S (cursor q);
                 options := options q; correctAnswerIndex := correctAnswerIndex q |}
  | _ => q
  end.

(** Modelled from the spec: the engine's queries are missing; each reads
    the state and leaves it as it is.  [getCurrentOptions]: the options
    of the current question. *)
Definition getCurrentOptions (q : VocabularyQuiz) : list string := options q.

(** Modelled from the spec: [getCorrectAnswerIndex] is missing; the
    index of the correct answer in the options. *)
Definition getCorrectAnswerIndex (q : VocabularyQuiz) : nat := correctAnswerIndex q.

(** Modelled from the spec: [isFinished] is missing; whether the deck is
    exhausted. *)
Definition isFinished (q : VocabularyQuiz) : bool :=
  match status q with Finished => true | _ => false end.

(** Modelled from the spec: [getCurrentQuestionIndex] is missing; the
    position in the deck. *)
Definition getCurrentQuestionIndex (q : VocabularyQuiz) : nat := cursor q.

(** Modelled from the spec: [getTotalQuestions] is missing; the size of
    the deck. *)
Definition getTotalQuestions (q : VocabularyQuiz) : nat := List.length (deck q).

(** Modelled from the spec: [getCurrentQuestion] is missing; the field
    of the current word that the question word type selects. *)
Definition getCurrentQuestion (q : VocabularyQuiz) : string :=
  match nth_error (deck q) (cursor q) with
  | Some card => field (wordType card) (word card)
  | None => EmptyString
  end.

(** Modelled from the spec: the engine must tolerate being queried
    repeatedly without changing state.  What the presentation layer does
    with the engine between two questions is any of the queries. *)
Inductive Query :=
| GetCurrentQuestion | GetCurrentOptions | GetCorrectAnswerIndex | IsFinished
| GetCurrentQuestionIndex | GetTotalQuestions.

(** Modelled from the spec: the state after a query is the state before
    it. *)
Definition query (q : VocabularyQuiz) (what : Query) : VocabularyQuiz := q.

(** Modelled from the spec: the calls the presentation layer makes on
    the engine, which is missing. *)
Inductive Command := Start | Advance (selectedLabel : ascii) | Ask (what : Query).

(** Modelled from the spec: the state after one call. *)
Definition run (q : VocabularyQuiz) (c : Command) : VocabularyQuiz :=
  match c with
  | Start => start q
  | Advance selectedLabel => advance selectedLabel q
  | Ask what => query q what
  end.

(** Modelled from the spec: the state a newly built engine reaches by a
    sequence of calls. *)
Definition reached (lessons : list Lesson) (commands : list Command) : VocabularyQuiz :=
  fold_left run commands (create lessons).

End Engine.

End quiz.

(** The two loops of [LessonManager.addLesson], named: over the tags of
    one word, and over the words of one lesson. *)
Definition add_tags {S : Type} {d : Database.Database S} (wordId : Z) (ts : list string)
  : State S unit :=
  for_each ts (fun tag => Database.addTag wordId tag).

Definition add_words {S : Type} {d : Database.Database S} (lessonId : Z) (ws : list Word)
  : State S unit :=
  for_each ws (fun word =>
    wordId <- Database.addWord lessonId word ;;
    for_each (tags word) (fun tag => Database.addTag wordId tag)).

(** What one [addLesson] adds to the trace of calls. *)
Definition is_lesson_block (lesson : Lesson) (block : list Call) : Prop :=
  exists (lessonId : Z) (wordIds : list Z),
    List.length wordIds = List.length (words lesson)
    /\ block = lesson_calls lesson lessonId wordIds.

(** ** Sequences of backend operations *)

(** One call of a data-changing method of [LessonsDatabase], with the
    engine's answer to its statement. *)
Inductive Operation :=
| OpAddLesson (o : Outcome) (mainName subName : string)
| OpAddWord (o : Outcome) (lessonId : Z) (word : Word)
| OpAddTag (o : Outcome) (wordId : Z) (tag : string)
| OpUpdateLesson (o : Outcome) (lessonId : Z) (newMainName newSubName : string)
| OpUpdateWord (o : Outcome) (wordId : Z) (updatedWord : Word)
| OpDeleteLesson (o : Outcome) (lessonId : Z)
| OpDeleteWord (o : Outcome) (wordId : Z).

Definition perform (self : LessonsDatabase.t) (op : Operation) : LessonsDatabase.t :=
  match op with
  | OpAddLesson o mainName subName => snd (LessonsDatabase.addLesson o mainName subName self)
  | OpAddWord o lessonId word => snd (LessonsDatabase.addWord o lessonId word self)
  | OpAddTag o wordId tag => LessonsDatabase.addTag o wordId tag self
  | OpUpdateLesson o lessonId newMainName newSubName =>
      LessonsDatabase.updateLesson o lessonId newMainName newSubName self
  | OpUpdateWord o wordId updatedWord => LessonsDatabase.updateWord o wordId updatedWord self
  | OpDeleteLesson o lessonId => LessonsDatabase.deleteLesson o lessonId self
  | OpDeleteWord o wordId => LessonsDatabase.deleteWord o wordId self
  end.

Definition perform_all (ops : list Operation) (self : LessonsDatabase.t) : LessonsDatabase.t :=
  fold_left perform ops self.

(** The rowids of one table are positive, pairwise distinct and not
    beyond the table's sequence counter. *)
Definition table_ids_sound (seq : Z) (ids : list Z) : Prop :=
  NoDup ids /\ Forall (fun id => 0 < id <= seq) ids.

Definition rowids_sound (d : sqlite3) : Prop :=
  table_ids_sound (seq_lessons d) (map lessons_id (lessons d))
  /\ table_ids_sound (seq_words d) (map words_id (words_table d))
  /\ table_ids_sound (seq_tags d) (map tags_id (tags_table d)).

(** No word row holds NULL in a nullable column. *)
Definition texts_present (d : sqlite3) : Prop :=
  Forall (fun r => words_romaji r <> None /\ words_example_sentence r <> None)
         (words_table d).

(** A rowid that [sqlite3_column_int] and [sqlite3_bind_int] carry
    unchanged. *)
Definition fits_int (z : Z) : Prop := - 2 ^ 31 <= z <= INT_MAX.

(** ** [QuizWidget] *)

Module QuizWidget.

(** Modelled from the spec: the class of [quizGame], the quiz session
    engine, is missing.  Its two commands change the engine; its queries
    are pure. *)
Class QuizGame (G : Type) := {
  start : G -> G;
  advance : ascii -> G -> G;
  getCurrentQuestion : G -> string;
  getCurrentOptions : G -> list string;
  getCorrectAnswerIndex : G -> Z;
  isFinished : G -> bool;
  getCurrentQuestionIndex : G -> Z;
  getTotalQuestions : G -> Z;
  getResults : G -> string
}.

(** What ImGui and the clock answer during one call of [draw]: what
    [Begin] leaves in [isQuizWindowOpen] (false once the close box is
    pressed) and what it returns, what [Button] returns for each option
    and for "Restart" and "Close", and what [steady_clock::now()] returns
    in [highlightAndAdvance] and in [draw]. *)
Record Frame := mkFrame {
  window_open : bool;
  window_visible : bool;
  option_pressed : nat -> bool;
  restart_pressed : bool;
  close_pressed : bool;
  now_at_press : Z;
  now_at_check : Z
}.

(** What [draw] puts in the window: texts, separators, spacings and
    buttons, a button being green between [PushStyleColor] and
    [PopStyleColor]. *)
Inductive Drawn :=
| TextWrapped (text : string)
| Separator
| Text (text : string)
| Spacing
| Button (label : string) (green : bool).

Section Widget.

Context {G : Type} {game : QuizGame G}.

(** The ticks of [steady_clock] in one second. *)
Variable ticks_per_second : Z.

(** The members [QuizWidget.cpp] uses. *)
Record t := mk {
  quizGame : G;
  bufferedQuestion : string;
  bufferedOptions : list string;
  highlightCorrectAnswer : bool;
  highlightStartTime : Z;
  correctAnswerIndex : Z;
  isQuizWindowOpen : bool;
  selectedOption : ascii
}.

Definition with_quizGame (g : G) (w : t) : t :=
  {| quizGame := g; bufferedQuestion := bufferedQuestion w;
     bufferedOptions := bufferedOptions w;
     highlightCorrectAnswer := highlightCorrectAnswer w;
     highlightStartTime := highlightStartTime w; correctAnswerIndex := correctAnswerIndex w;
     isQuizWindowOpen := isQuizWindowOpen w; selectedOption := selectedOption w |}.

Definition with_highlightCorrectAnswer (b : bool) (w : t) : t :=
  {| quizGame := quizGame w; bufferedQuestion := bufferedQuestion w;
     bufferedOptions := bufferedOptions w;
     highlightCorrectAnswer := b;
     highlightStartTime := highlightStartTime w; correctAnswerIndex := correctAnswerIndex w;
     isQuizWindowOpen := isQuizWindowOpen w; selectedOption := selectedOption w |}.

Definition with_isQuizWindowOpen (b : bool) (w : t) : t :=
  {| quizGame := quizGame w; bufferedQuestion := bufferedQuestion w;
     bufferedOptions := bufferedOptions w;
     highlightCorrectAnswer := highlightCorrectAnswer w;
     highlightStartTime := highlightStartTime w; correctAnswerIndex := correctAnswerIndex w;
     isQuizWindowOpen := b; selectedOption := selectedOption w |}.

Definition with_selectedOption (c : ascii) (w : t) : t :=
  {| quizGame := quizGame w; bufferedQuestion := bufferedQuestion w;
     bufferedOptions := bufferedOptions w;
     highlightCorrectAnswer := highlightCorrectAnswer w;
     highlightStartTime := highlightStartTime w; correctAnswerIndex := correctAnswerIndex w;
     isQuizWindowOpen := isQuizWindowOpen w; selectedOption := c |}.

(** [bufferedQuestion = quizGame.getCurrentQuestion();
     bufferedOptions = quizGame.getCurrentOptions();] *)
Definition refresh (w : t) : t :=
  {| quizGame := quizGame w;
     bufferedQuestion := getCurrentQuestion (quizGame w);
     bufferedOptions := getCurrentOptions (quizGame w);
     highlightCorrectAnswer := highlightCorrectAnswer w;
     highlightStartTime := highlightStartTime w; correctAnswerIndex := correctAnswerIndex w;
     isQuizWindowOpen := isQuizWindowOpen w; selectedOption := selectedOption w |}.

Definition highlightAndAdvance (f : Frame) (w : t) : t :=
  {| quizGame := quizGame w; bufferedQuestion := bufferedQuestion w;
     bufferedOptions := bufferedOptions w;
     highlightCorrectAnswer := true;
     highlightStartTime := now_at_press f;
     correctAnswerIndex := getCorrectAnswerIndex (quizGame w);
     isQuizWindowOpen := isQuizWindowOpen w; selectedOption := selectedOption w |}.

(** [std::string(1, optionLabel) + ") " + bufferedOptions[i]] *)
Definition option_text (i : nat) (w : t) : string :=
  String (quiz.optionLabel i) ") " +++ nth i (bufferedOptions w) EmptyString.

(** One turn of the loop over the options. *)
Definition option_button (f : Frame) (i : nat) (w : t) : Drawn * t :=
  if highlightCorrectAnswer w && (Z.of_nat i =? correctAnswerIndex w)
  then (Button (option_text i w) true, w)
  else (Button (option_text i w) false,
        if option_pressed f i
        then if negb (highlightCorrectAnswer w)
             then highlightAndAdvance f (with_selectedOption (quiz.optionLabel i) w)
             else w
        else w).

Fixpoint option_buttons (f : Frame) (indices : list nat) (w : t) : list Drawn * t :=
  match indices with
  | [] => ([], w)
  | i :: rest =>
      let (button, w1) := option_button f i w in
      let (buttons, w2) := option_buttons f rest w1 in
      (button :: buttons, w2)
  end.

(** [duration_cast<seconds>(now - highlightStartTime).count()] *)
Definition elapsed (f : Frame) (w : t) : Z :=
  Z.quot (now_at_check f - highlightStartTime w) ticks_per_second.

(** The block under [if( highlightCorrectAnswer )] that ends the
    highlight once two seconds have passed. *)
Definition end_highlight (f : Frame) (w : t) : t :=
  if highlightCorrectAnswer w
  then if 2 <=? elapsed f w
       then let w := with_highlightCorrectAnswer false w in
            let w := with_quizGame (advance (selectedOption w) (quizGame w)) w in
            let w := if negb (isFinished (quizGame w)) then refresh w else w in
            with_selectedOption zero w
       else w
  else w.

Definition progress (w : t) : string :=
  "Progress: " +++ to_string (getCurrentQuestionIndex (quizGame w) + 1)
  +++ "/" +++ to_string (getTotalQuestions (quizGame w)).

Definition welcome : string :=
  "Welcome to the Quiz Game! Test your knowledge by selecting the correct translation.".

Definition draw (f : Frame) (w : t) : list Drawn * t :=
  if isQuizWindowOpen w then
    let w := with_isQuizWindowOpen (window_open f) w in
    if window_visible f then
      let w := if negb (highlightCorrectAnswer w) then refresh w else w in
      let (body, w) :=
        if negb (isFinished (quizGame w)) then
          let question := bufferedQuestion w in
          let (buttons, w) :=
            option_buttons f (seq 0 (List.length (bufferedOptions w))) w in
          let w := end_highlight f w in
          ([Separator; Text question; Spacing] ++ buttons ++ [Text (progress w)], w)
        else
          ([Text (getResults (quizGame w)); Button "Restart" false],
           if restart_pressed f then refresh (with_quizGame (start (quizGame w)) w) else w) in
      ([TextWrapped welcome] ++ body ++ [Button "Close" false],
       if close_pressed f then with_isQuizWindowOpen false w else w)
    else ([], w)
  else ([], w).

(** The frames of a session, drawn one after the other. *)
Definition draw_all (frames : list Frame) (w : t) : t :=
  fold_left (fun w f => snd (draw f w)) frames w.

(** A frame in which the window stays open and shown. *)
Definition stays_shown (f : Frame) : Prop :=
  window_open f = true /\ window_visible f = true /\ close_pressed f = false.

End Widget.

End QuizWidget.

(** The engine modelled above, in deck order, with every candidate as a
    distractor and the correct answer placed last, as a [QuizGame]; it has
    no results text. *)
#[global] Instance quiz_QuizGame : QuizWidget.QuizGame quiz.VocabularyQuiz := {|
  QuizWidget.start := quiz.start (fun cards => cards) (fun _ pool => pool) (fun _ n => n);
  QuizWidget.advance :=
    quiz.advance (fun _ pool => pool) (fun _ n => n) (fun _ => true);
  QuizWidget.getCurrentQuestion := quiz.getCurrentQuestion;
  QuizWidget.getCurrentOptions := quiz.getCurrentOptions;
  QuizWidget.getCorrectAnswerIndex := fun q => Z.of_nat (quiz.getCorrectAnswerIndex q);
  QuizWidget.isFinished := quiz.isFinished;
  QuizWidget.getCurrentQuestionIndex := fun q => Z.of_nat (quiz.getCurrentQuestionIndex q);
  QuizWidget.getTotalQuestions := fun q => Z.of_nat (quiz.getTotalQuestions q);
  QuizWidget.getResults := fun _ => EmptyString
|}.

(** A widget over the test lesson, as its constructor leaves it: the
    engine started and the buffers filled; the members the constructor
    does not set are taken to start with no highlight, an open window and
    no selection. *)
Definition test_widget : QuizWidget.t :=
  let g := QuizWidget.start (quiz.create LessonManagerTest.stored) in
  {| QuizWidget.quizGame := g;
     QuizWidget.bufferedQuestion := QuizWidget.getCurrentQuestion g;
     QuizWidget.bufferedOptions := QuizWidget.getCurrentOptions g;
     QuizWidget.highlightCorrectAnswer := false;
     QuizWidget.highlightStartTime := 0;
     QuizWidget.correctAnswerIndex := 0;
     QuizWidget.isQuizWindowOpen := true;
     QuizWidget.selectedOption := zero |}.

(** A frame at time [now] in which the window stays shown and the options
    in [pressed] are pressed. *)
Definition test_frame (pressed : list nat) (now : Z) : QuizWidget.Frame :=
  {| QuizWidget.window_open := true; QuizWidget.window_visible := true;
     QuizWidget.option_pressed := fun i => existsb (Nat.eqb i) pressed;
     QuizWidget.restart_pressed := false; QuizWidget.close_pressed := false;
     QuizWidget.now_at_press := now; QuizWidget.now_at_check := now |}.

(** ** Opening the database *)

Module LessonsDatabaseSetup.

(** What the engine answers while a [LessonsDatabase] is constructed:
    the error of [sqlite3_open], and of the [sqlite3_exec] of each
    [CREATE TABLE IF NOT EXISTS]; [None] where the call succeeds. *)
Record Setup := mkSetup {
  open_error : option string;
  lessons_error : option string;
  words_error : option string;
  tags_error : option string
}.

(** [initDatabase]: a table that exists is left as it is, and a table
    created is empty, so the rows of the store are those of the file. *)
Definition initDatabase (x : Setup) (self : LessonsDatabase.t) : bool * LessonsDatabase.t :=
  match lessons_error x with
  | Some errMsg =>
      (false, LessonsDatabase.with_log
                ("Database: SQL error while creating lessons table: " +++ errMsg) PROBLEM self)
  | None =>
      match words_error x with
      | Some errMsg =>
          (false, LessonsDatabase.with_log
                    ("Database: SQL error while creating words table: " +++ errMsg) PROBLEM self)
      | None =>
          match tags_error x with
          | Some errMsg =>
              (false, LessonsDatabase.with_log
                        ("Database: SQL error while creating tags table: " +++ errMsg) PROBLEM
                        self)
          | None => (true, self)
          end
      end
  end.

(** The constructor, over the rows [file] of the database at [dbPath]. *)
Definition LessonsDatabase (dbPath : string) (x : Setup) (file : sqlite3) (logger : Logger)
  : LessonsDatabase.t :=
  let self := {| LessonsDatabase.db := file; LessonsDatabase.m_logger := logger |} in
  match open_error x with
  | Some errmsg =>
      LessonsDatabase.with_log ("Database: Can't open database: " +++ errmsg) PROBLEM self
  | None =>
      let self :=
        LessonsDatabase.with_log ("Database: Opened database successfully at " +++ dbPath) INFO
          self in
      let (initialized, self) := initDatabase x self in
      if initialized
      then LessonsDatabase.with_log "Database: Initialized database successfully." INFO self
      else LessonsDatabase.with_log "Database: Failed to initialize database." PROBLEM self
  end.

(** The first of the three tables, in the order [initDatabase] creates
    them, whose creation fails, with the error. *)
Definition first_failure (x : Setup) : option (string * string) :=
  match lessons_error x, words_error x, tags_error x with
  | Some errMsg, _, _ => Some ("lessons"%string, errMsg)
  | None, Some errMsg, _ => Some ("words"%string, errMsg)
  | None, None, Some errMsg => Some ("tags"%string, errMsg)
  | None, None, None => None
  end.

End LessonsDatabaseSetup.

(** * Properties *)

(** ** C values and rowids *)

Lemma static_cast_int_small (z : Z) :
  - 2 ^ 31 <= z <= INT_MAX -> static_cast_int z = z.
Proof.
  unfold static_cast_int, INT_MAX. intros Hz.
  rewrite Z.mod_small; lia.
Qed.

Lemma max_rowid_nonneg (ids : list Z) : 0 <= max_rowid ids.
Proof.
  induction ids as [|x ids IH]; simpl; lia.
Qed.

Lemma max_rowid_upper (ids : list Z) (x : Z) : In x ids -> x <= max_rowid ids.
Proof.
  induction ids as [|y ids IH]; simpl; intros Hin.
  - contradiction.
  - destruct Hin as [-> | Hin]; [lia | specialize (IH Hin); lia].
Qed.

Lemma next_rowid_positive (seq : Z) (ids : list Z) : 0 < next_rowid seq ids.
Proof.
  unfold next_rowid. pose proof (max_rowid_nonneg ids). lia.
Qed.

Lemma next_rowid_fresh (seq : Z) (ids : list Z) : ~ In (next_rowid seq ids) ids.
Proof.
  intros Hin. apply max_rowid_upper in Hin. unfold next_rowid in Hin. lia.
Qed.

(** Reading back what was bound: a C string has no NUL left in it. *)
Lemma c_str_idempotent (s : string) : c_str (c_str s) = c_str s.
Proof.
  induction s as [|c s IH]; simpl; auto.
  destruct (Ascii.eqb c zero) eqn:E; simpl; auto.
  rewrite E, IH. reflexivity.
Qed.

(** ** The storage backend *)

(** ** Loops that may have no result *)

Section AllOrNone.

Context {A B : Type}.

Lemma all_or_none_cons (body : A -> option B) (r : A) (rows : list A) :
  all_or_none body (r :: rows)
  = match body r, all_or_none body rows with
    | Some b, Some bs => Some (b :: bs)
    | _, _ => None
    end.
Proof. cbn [all_or_none]. destruct (body r); reflexivity. Qed.

Lemma all_or_none_app (body : A -> option B) (rows rows' : list A) :
  all_or_none body (rows ++ rows')
  = match all_or_none body rows, all_or_none body rows' with
    | Some bs, Some bs' => Some (bs ++ bs')
    | _, _ => None
    end.
Proof.
  induction rows as [|r rows IH].
  - cbn [app all_or_none]. destruct (all_or_none body rows'); reflexivity.
  - rewrite <- app_comm_cons, !all_or_none_cons, IH.
    destruct (body r), (all_or_none body rows), (all_or_none body rows'); reflexivity.
Qed.

(** The loop has a result exactly when every turn has one. *)
Lemma all_or_none_Some (body : A -> option B) (rows : list A) (bs : list B) :
  all_or_none body rows = Some bs <-> Forall2 (fun r b => body r = Some b) rows bs.
Proof.
  revert bs. induction rows as [|r rows IH]; intros bs.
  - cbn [all_or_none]. split.
    + intros H. injection H as <-. constructor.
    + intros H. inversion H. reflexivity.
  - rewrite all_or_none_cons. split.
    + destruct (body r) as [b|] eqn:Hb; [| discriminate].
      destruct (all_or_none body rows) as [bs'|] eqn:Hbs; [| discriminate].
      intros H. injection H as <-. constructor; [exact Hb | apply IH; reflexivity].
    + intros H. inversion H as [| r' b rows' bs' Hb Hrest]; subst.
      rewrite Hb. apply IH in Hrest. rewrite Hrest. reflexivity.
Qed.

Lemma all_or_none_None (body : A -> option B) (rows : list A) :
  all_or_none body rows = None <-> Exists (fun r => body r = None) rows.
Proof.
  induction rows as [|r rows IH].
  - cbn [all_or_none]. split; [discriminate | intros H; inversion H].
  - rewrite all_or_none_cons. split.
    + destruct (body r) as [b|] eqn:Hb; [| intros _; left; exact Hb].
      destruct (all_or_none body rows); [discriminate |].
      intros _. right. apply IH. reflexivity.
    + intros H. inversion H as [r' rows' Hr | r' rows' Hrest]; subst.
      * rewrite Hr. reflexivity.
      * apply IH in Hrest. rewrite Hrest. destruct (body r); reflexivity.
Qed.

Lemma all_or_none_ext_in (body body' : A -> option B) (rows : list A) :
  (forall r, In r rows -> body r = body' r) ->
  all_or_none body rows = all_or_none body' rows.
Proof.
  induction rows as [|r rows IH]; intros H; [reflexivity |].
  rewrite !all_or_none_cons, (H r (or_introl eq_refl)), IH; [reflexivity |].
  intros r' Hr'. apply H. right. exact Hr'.
Qed.

(** A loop over fewer rows has a result when the loop over all has. *)
Lemma all_or_none_filter (body : A -> option B) (p : A -> bool) (q : B -> bool)
    (rows : list A) (bs : list B) :
  all_or_none body rows = Some bs ->
  (forall r b, In r rows -> body r = Some b -> p r = q b) ->
  all_or_none body (filter p rows) = Some (filter q bs).
Proof.
  revert bs. induction rows as [|r rows IH]; intros bs Hall Hpq.
  - injection Hall as <-. reflexivity.
  - rewrite all_or_none_cons in Hall.
    destruct (body r) as [b|] eqn:Hb; [| discriminate].
    destruct (all_or_none body rows) as [bs'|] eqn:Hbs; [| discriminate].
    injection Hall as <-. cbn [filter].
    rewrite <- (Hpq r b (or_introl eq_refl) Hb).
    assert (Hrest : all_or_none body (filter p rows) = Some (filter q bs')).
    { apply IH; [reflexivity |]. intros r' b' Hr'. apply Hpq. right. exact Hr'. }
    destruct (p r); [| exact Hrest].
    rewrite all_or_none_cons, Hb, Hrest. reflexivity.
Qed.

Lemma all_or_none_firstn (body : A -> option B) (n : nat) (rows : list A) (bs : list B) :
  all_or_none body rows = Some bs ->
  all_or_none body (firstn n rows) = Some (firstn n bs).
Proof.
  revert n bs. induction rows as [|r rows IH]; intros n bs Hall.
  - injection Hall as <-. rewrite !firstn_nil. reflexivity.
  - rewrite all_or_none_cons in Hall.
    destruct (body r) as [b|] eqn:Hb; [| discriminate].
    destruct (all_or_none body rows) as [bs'|] eqn:Hbs; [| discriminate].
    injection Hall as <-. destruct n as [|n]; [reflexivity |].
    cbn [firstn]. rewrite all_or_none_cons, Hb, (IH n bs' eq_refl). reflexivity.
Qed.

Lemma all_or_none_rows_seen (body : A -> option B) (s : Scan) (rows : list A) (bs : list B) :
  all_or_none body rows = Some bs ->
  all_or_none body (rows_seen s rows) = Some (rows_seen s bs).
Proof.
  intros Hall. destruct s as [| n |]; cbn [rows_seen];
    [reflexivity | apply all_or_none_firstn; exact Hall | exact Hall].
Qed.

(** What is equal row by row is equal in the results. *)
Lemma all_or_none_project {K : Type} (body : A -> option B) (k : A -> K) (k' : B -> K)
    (rows : list A) (bs : list B) :
  all_or_none body rows = Some bs ->
  (forall r b, In r rows -> body r = Some b -> k r = k' b) ->
  map k rows = map k' bs.
Proof.
  revert bs. induction rows as [|r rows IH]; intros bs Hall Hk.
  - injection Hall as <-. reflexivity.
  - rewrite all_or_none_cons in Hall.
    destruct (body r) as [b|] eqn:Hb; [| discriminate].
    destruct (all_or_none body rows) as [bs'|] eqn:Hbs; [| discriminate].
    injection Hall as <-. cbn [map]. f_equal.
    + apply Hk; [left; reflexivity | exact Hb].
    + apply IH; [reflexivity |]. intros r' b' Hr'. apply Hk. right. exact Hr'.
Qed.

End AllOrNone.

(** The loop over changed rows, from the loop over the rows as they
    were. *)
Lemma all_or_none_transfer {A A' B B' : Type} (body : A -> option B) (body' : A' -> option B')
    (u : A -> A') (h : B -> B') (rows : list A) (bs : list B) :
  all_or_none body rows = Some bs ->
  (forall r b, In r rows -> body r = Some b -> body' (u r) = Some (h b)) ->
  all_or_none body' (map u rows) = Some (map h bs).
Proof.
  revert bs. induction rows as [|r rows IH]; intros bs Hall Hu.
  - injection Hall as <-. reflexivity.
  - rewrite all_or_none_cons in Hall.
    destruct (body r) as [b|] eqn:Hb; [| discriminate].
    destruct (all_or_none body rows) as [bs'|] eqn:Hbs; [| discriminate].
    injection Hall as <-. cbn [map].
    rewrite all_or_none_cons, (Hu r b (or_introl eq_refl) Hb).
    rewrite (IH bs' eq_refl); [reflexivity |].
    intros r' b' Hr'. apply Hu. right. exact Hr'.
Qed.

Lemma all_or_none_option_map {A B B' : Type} (body : A -> option B) (body' : A -> option B')
    (h : B -> B') (rows : list A) :
  (forall r, In r rows -> body' r = option_map h (body r)) ->
  all_or_none body' rows = option_map (map h) (all_or_none body rows).
Proof.
  induction rows as [|r rows IH]; intros H; [reflexivity |].
  rewrite !all_or_none_cons, (H r (or_introl eq_refl)), IH.
  - destruct (body r), (all_or_none body rows); reflexivity.
  - intros r' Hr'. apply H. right. exact Hr'.
Qed.

Module LessonsDatabaseFacts.
Import LessonsDatabase.

(** C5, as stated, fails twice.  A statement that cannot be prepared makes
    [addLesson] return -1 without a word to the logger; and an insert that
    succeeds with a rowid beyond [INT_MAX] returns the rowid cast to [int],
    which is negative. *)
Lemma addLesson_silent_or_negative :
  (let r := addLesson PrepareFails "Main Name" "Sub Name" empty in
   fst r = -1 /\ m_logger (snd r) = m_logger empty)
  /\
  (let full := with_db (mk_sqlite3 [] [] [] INT_MAX 0 0 0) empty in
   let r := addLesson Done "Main Name" "Sub Name" full in
   lessons (db (snd r)) = [mk_lessons_row (2 ^ 31) "Main Name" "Sub Name"]
   /\ fst r = - 2 ^ 31).
Proof.
  split; vm_compute; split; reflexivity.
Qed.

(** C5, amended: [addLesson] never fails otherwise than by its result.  A
    statement that is not prepared gives -1 and changes nothing, the logger
    included; a failed step gives -1, leaves the store as it was and logs
    one PROBLEM line; a successful insert whose rowid fits an [int] gives
    a positive id that no lesson row had, appends the row and logs one INFO
    line. *)
Theorem addLesson_result (mainName subName : string) (self : t) :
  addLesson PrepareFails mainName subName self = (-1, self)
  /\ (forall errmsg,
        addLesson (StepFails errmsg) mainName subName self
        = (-1, {| db := db self;
                  m_logger := m_logger self
                    ++ [("Database: SQL error while adding lesson: " +++ errmsg, PROBLEM)] |}))
  /\ (next_rowid (seq_lessons (db self)) (map lessons_id (lessons (db self))) <= INT_MAX ->
      let r := addLesson Done mainName subName self in
      let lessonId := fst r in
      0 < lessonId
      /\ ~ In lessonId (map lessons_id (lessons (db self)))
      /\ lessons (db (snd r))
         = lessons (db self) ++ [mk_lessons_row lessonId (c_str mainName) (c_str subName)]
      /\ words_table (db (snd r)) = words_table (db self)
      /\ tags_table (db (snd r)) = tags_table (db self)
      /\ m_logger (snd r)
         = m_logger self
           ++ [("Database: Added lesson with ID " +++ to_string lessonId
                +++ ", mainName: " +++ mainName +++ ", subName: " +++ subName, INFO)]).
Proof.
  split; [reflexivity | split; [reflexivity |]].
  intros Hfits.
  cbn -[next_rowid static_cast_int to_string String.append].
  set (rowid := next_rowid _ _) in *.
  assert (Hpos : 0 < rowid) by apply next_rowid_positive.
  assert (Hcast : static_cast_int rowid = rowid)
    by (apply static_cast_int_small; unfold INT_MAX in *; lia).
  rewrite Hcast.
  repeat split; auto.
  apply next_rowid_fresh.
Qed.

(** The populated store takes a second lesson. *)
Lemma addLesson_result_witness :
  let self := LessonManagerTest.populated in
  next_rowid (seq_lessons (db self)) (map lessons_id (lessons (db self))) <= INT_MAX
  /\ 0 < fst (addLesson Done "Main Name 2" "Sub Name 2" self).
Proof.
  cbn zeta.
  assert (H : next_rowid (seq_lessons (db LessonManagerTest.populated))
                (map lessons_id (lessons (db LessonManagerTest.populated))) <= INT_MAX)
    by (vm_compute; discriminate).
  split; [exact H |].
  exact (proj1 (proj2 (proj2
           (addLesson_result "Main Name 2" "Sub Name 2" LessonManagerTest.populated)) H)).
Defined.

(** C10: once the statement is prepared, [addTag] ends with the INFO line
    "Added tag" whether the insert succeeded or not.  After a failed step
    the store is as it was and the logger has gained the PROBLEM line and
    then the very INFO line a successful insert logs; nothing is
    returned. *)
Theorem addTag_logs_added_after_failed_step (wordId : Z) (tag : string) (self : t) :
  let added := ("Database: Added tag '" +++ tag +++ "' to word ID " +++ to_string wordId, INFO) in
  (forall errmsg,
     addTag (StepFails errmsg) wordId tag self
     = {| db := db self;
          m_logger := m_logger self
            ++ [("Database: SQL error while adding tag: " +++ errmsg, PROBLEM); added] |})
  /\ m_logger (addTag Done wordId tag self) = m_logger self ++ [added]
  /\ (forall o, prepare_ok o = true ->
        exists before, m_logger (addTag o wordId tag self) = before ++ [added]).
Proof.
  cbn zeta. split; [| split].
  - intros errmsg. unfold addTag, with_log, log. cbn -[to_string String.append].
    rewrite <- app_assoc. reflexivity.
  - reflexivity.
  - intros [| errmsg |] Hprep; try discriminate.
    + eexists. unfold addTag, with_log, log. cbn -[to_string String.append]. reflexivity.
    + eexists. reflexivity.
Qed.

(** C2, as stated, fails: deleting lesson 1 of the populated store leaves
    its two word rows and their tag rows in place. *)
Lemma deleteLesson_leaves_words_and_tags :
  let after := deleteLesson Done 1 LessonManagerTest.populated in
  In 1 (map lessons_id (lessons (db LessonManagerTest.populated)))
  /\ lessons (db after) = []
  /\ map words_lesson_id (words_table (db after)) = [1; 1]
  /\ map words_id (words_table (db after)) = [1; 2]
  /\ map tags_word_id (tags_table (db after)) = [1; 2].
Proof.
  vm_compute. repeat split; auto.
Qed.

(** C2, amended: a [deleteLesson] whose statement runs removes the lesson
    rows with that id and no other row: the other lesson rows stay, in
    order, and the [words] and [tags] tables are untouched. *)
Theorem deleteLesson_removes_only_the_lesson_row (lessonId : Z) (self : t) :
  let after := deleteLesson Done lessonId self in
  ~ In lessonId (map lessons_id (lessons (db after)))
  /\ lessons (db after) = filter (fun r => negb (lessons_id r =? lessonId)) (lessons (db self))
  /\ (forall r, lessons_id r <> lessonId ->
        (In r (lessons (db after)) <-> In r (lessons (db self))))
  /\ words_table (db after) = words_table (db self)
  /\ tags_table (db after) = tags_table (db self).
Proof.
  cbn -[to_string String.append]. repeat split; auto.
  - rewrite in_map_iff. intros [r [Hid Hin]].
    apply filter_In in Hin. destruct Hin as [_ Hne].
    rewrite Hid, Z.eqb_refl in Hne. discriminate.
  - intros Hin. apply filter_In in Hin. tauto.
  - intros Hin. apply filter_In. split; auto.
    apply negb_true_iff, Z.eqb_neq. assumption.
Qed.

(** A tag insert that fails on the populated store. *)
Lemma addTag_logs_added_after_failed_step_witness :
  prepare_ok (StepFails "disk I/O error") = true
  /\ exists before,
       m_logger (addTag (StepFails "disk I/O error") 2 "tag1" LessonManagerTest.populated)
       = before ++ [("Database: Added tag 'tag1' to word ID 2"%string, INFO)].
Proof.
  split; [reflexivity |].
  exact (proj2 (proj2 (addTag_logs_added_after_failed_step 2 "tag1" LessonManagerTest.populated))
           (StepFails "disk I/O error") eq_refl).
Defined.

(** C7: [getLessonNames] gives, for each lesson row in the order the table
    is stepped through, the lesson's main name, then " - ", then its sub
    name: the names [getAllLessons] reports for the same store, whatever
    lessons it returns. *)
Theorem getLessonNames_format (self : t) :
  (forall stored : list Lesson,
     getAllLessons healthy self = Some stored ->
     getLessonNames ScanDone self
     = map (fun lesson => mainName lesson +++ " - " +++ subName lesson) stored)
  /\ getLessonNames ScanDone self
     = map (fun r => c_str (lessons_main_name r) +++ " - " +++ c_str (lessons_sub_name r))
           (lessons (db self))
  /\ List.length (getLessonNames ScanDone self) = List.length (lessons (db self)).
Proof.
  unfold getLessonNames. cbn [rows_seen]. rewrite length_map.
  split; [| split; reflexivity].
  intros stored Hread. unfold getAllLessons in Hread. cbn [rows_seen healthy on_lessons] in Hread.
  apply (all_or_none_project _ _ _ _ _ Hread).
  intros r lesson _ Hlesson. unfold lesson_of_row in Hlesson.
  destruct (getWordsInLesson healthy (static_cast_int (lessons_id r)) self); [| discriminate].
  injection Hlesson as <-. reflexivity.
Qed.

(** The names of the populated store. *)
Lemma getLessonNames_format_witness :
  getAllLessons healthy LessonManagerTest.populated = Some LessonManagerTest.stored
  /\ getLessonNames ScanDone LessonManagerTest.populated = ["Main Name - Sub Name"%string].
Proof.
  split; [reflexivity |].
  exact (proj1 (getLessonNames_format LessonManagerTest.populated)
           LessonManagerTest.stored eq_refl).
Defined.

(** A [SELECT] that is not prepared, or stops early, shortens the result. *)
Lemma getLessonNames_scan (s : Scan) (self : t) :
  getLessonNames s self = rows_seen s (getLessonNames ScanDone self).
Proof.
  unfold getLessonNames. destruct s as [| n |]; cbn [rows_seen]; auto.
  rewrite firstn_map. reflexivity.
Qed.

(** C8: [updateWord] leaves the [lessons] and [tags] tables as they were,
    keeps every word row's id and lesson id, and at each position of the
    [words] table leaves the row as it was unless its id is [wordId], in
    which case kana, translation, romaji and example sentence are those of
    [updatedWord]. *)
Theorem updateWord_replaces_four_fields (wordId : Z) (updatedWord : Word) (self : t) :
  let after := updateWord Done wordId updatedWord self in
  lessons (db after) = lessons (db self)
  /\ tags_table (db after) = tags_table (db self)
  /\ map words_id (words_table (db after)) = map words_id (words_table (db self))
  /\ map words_lesson_id (words_table (db after)) = map words_lesson_id (words_table (db self))
  /\ forall (i : nat) (r : words_row),
       nth_error (words_table (db self)) i = Some r ->
       nth_error (words_table (db after)) i
       = Some (if words_id r =? wordId
               then {| words_id := words_id r;
                       words_lesson_id := words_lesson_id r;
                       words_kana := c_str (kana updatedWord);
                       words_translation := c_str (translation updatedWord);
                       words_romaji := Some (c_str (romaji updatedWord));
                       words_example_sentence := Some (c_str (exampleSentence updatedWord)) |}
               else r).
Proof.
  cbn -[to_string String.append c_str].
  split; [reflexivity | split; [reflexivity |]].
  split; [| split].
  - rewrite map_map. apply map_ext. intros r. destruct (words_id r =? wordId); reflexivity.
  - rewrite map_map. apply map_ext. intros r. destruct (words_id r =? wordId); reflexivity.
  - intros i r Hnth. rewrite nth_error_map, Hnth. reflexivity.
Qed.

(** The second word of the populated store, overwritten with the first. *)
Lemma updateWord_replaces_four_fields_witness :
  nth_error (words_table (db LessonManagerTest.populated)) 1%nat
  = Some (mk_words_row 2 1 "qwe" "translation2" (Some "romaji2"%string)
            (Some "example2"%string))
  /\ nth_error (words_table
                  (db (updateWord Done 2 LessonManagerTest.word1 LessonManagerTest.populated)))
               1%nat
     = Some (mk_words_row 2 1 "as" "translation1" (Some "romaji1"%string)
               (Some "example1"%string)).
Proof.
  split; [reflexivity |].
  exact (proj2 (proj2 (proj2 (proj2
           (updateWord_replaces_four_fields 2 LessonManagerTest.word1
              LessonManagerTest.populated))))
           1%nat
           (mk_words_row 2 1 "qwe" "translation2" (Some "romaji2"%string)
              (Some "example2"%string))
           eq_refl).
Defined.

(** An [updateWord] whose statement fails changes no row at all. *)
Lemma updateWord_failed (o : Outcome) (wordId : Z) (updatedWord : Word) (self : t) :
  o <> Done -> db (updateWord o wordId updatedWord self) = db self.
Proof.
  destruct o; intros Ho; [reflexivity | reflexivity | contradiction].
Qed.

(** Whatever the engine answers, [deleteLesson] leaves the [words] and
    [tags] tables alone. *)
Lemma deleteLesson_keeps_words_and_tags (o : Outcome) (lessonId : Z) (self : t) :
  words_table (db (deleteLesson o lessonId self)) = words_table (db self)
  /\ tags_table (db (deleteLesson o lessonId self)) = tags_table (db self).
Proof.
  destruct o; split; reflexivity.
Qed.

(** Reading the populated store back gives the test lesson with the ids
    the store assigned. *)
Example populated_read_back :
  getAllLessons healthy LessonManagerTest.populated = Some LessonManagerTest.stored
  /\ getLessonNames ScanDone LessonManagerTest.populated = ["Main Name - Sub Name"%string].
Proof. split; reflexivity. Qed.

(** A NULL romaji in the store: the reads that reach the row have no
    result, the reads that stop before it, or look elsewhere, have one, and
    [getLessonNames], which reads no word, is not affected. *)
Example null_romaji_read :
  getWordsInLesson healthy 1 LessonManagerTest.populated_with_null = None
  /\ getAllLessons healthy LessonManagerTest.populated_with_null = None
  /\ getWordsInLesson healthy 2 LessonManagerTest.populated_with_null = Some []
  /\ getWordsInLesson
       {| on_lessons := ScanDone; on_words := fun _ => ScanStops 0; on_tags := fun _ => ScanDone |}
       1 LessonManagerTest.populated_with_null = Some []
  /\ getLessonNames ScanDone LessonManagerTest.populated_with_null
     = ["Main Name - Sub Name"%string].
Proof. repeat split; reflexivity. Qed.

End LessonsDatabaseFacts.

(** ** State passing *)

Lemma bind_run {S A B : Type} (m : State S A) (k : A -> State S B) (s : S) :
  bind m k s = k (fst (m s)) (snd (m s)).
Proof.
  unfold bind. destruct (m s); reflexivity.
Qed.

Lemma ret_run {S A : Type} (a : A) (s : S) : ret a s = (a, s).
Proof. reflexivity. Qed.

Lemma for_each_cons {S X : Type} (x : X) (xs : list X) (body : X -> State S unit) (s : S) :
  for_each (x :: xs) body s = for_each xs body (snd (body x s)).
Proof.
  cbn [for_each]. rewrite bind_run. reflexivity.
Qed.

Lemma for_each_unit {S X : Type} (xs : list X) (body : X -> State S unit) (s : S) :
  for_each xs body s = (tt, snd (for_each xs body s)).
Proof.
  destruct (for_each xs body s) as [[] s']. reflexivity.
Qed.

Lemma recorded_run {DB A : Type} (m : State DB A) (call : A -> Call) (s : DB * list Call) :
  recorded m call s
  = (fst (m (fst s)), (snd (m (fst s)), snd s ++ [call (fst (m (fst s)))])).
Proof.
  unfold recorded. destruct (m (fst s)); reflexivity.
Qed.

(** ** The lesson manager over an observed backend *)

Section ManagerFacts.

Context {DB : Type} {backend : Database.Database DB}.

Lemma addLesson_recorded (mainName subName : string) (b : DB) (tr : list Call) :
  Database.addLesson mainName subName (b, tr)
  = (fst (Database.addLesson mainName subName b),
     (snd (Database.addLesson mainName subName b),
      tr ++ [CallAddLesson mainName subName (fst (Database.addLesson mainName subName b))])).
Proof. cbn [Database.addLesson Recorder]. apply recorded_run. Qed.

Lemma addWord_recorded (lessonId : Z) (word : Word) (b : DB) (tr : list Call) :
  Database.addWord lessonId word (b, tr)
  = (fst (Database.addWord lessonId word b),
     (snd (Database.addWord lessonId word b),
      tr ++ [CallAddWord lessonId word (fst (Database.addWord lessonId word b))])).
Proof. cbn [Database.addWord Recorder]. apply recorded_run. Qed.

Lemma addTag_recorded (wordId : Z) (tag : string) (b : DB) (tr : list Call) :
  Database.addTag wordId tag (b, tr)
  = (fst (Database.addTag wordId tag b),
     (snd (Database.addTag wordId tag b), tr ++ [CallAddTag wordId tag])).
Proof. cbn [Database.addTag Recorder]. apply recorded_run. Qed.

Lemma updateLesson_recorded (lessonId : Z) (newMainName newSubName : string)
    (b : DB) (tr : list Call) :
  Database.updateLesson lessonId newMainName newSubName (b, tr)
  = (fst (Database.updateLesson lessonId newMainName newSubName b),
     (snd (Database.updateLesson lessonId newMainName newSubName b),
      tr ++ [CallUpdateLesson lessonId newMainName newSubName])).
Proof. cbn [Database.updateLesson Recorder]. apply recorded_run. Qed.

Lemma add_tags_recorded (wordId : Z) (ts : list string) (b : DB) (tr : list Call) :
  add_tags wordId ts (b, tr)
  = (tt, (snd (add_tags wordId ts b), tr ++ map (CallAddTag wordId) ts)).
Proof.
  revert b tr. induction ts as [|tag ts IH]; intros b tr.
  - cbn. rewrite app_nil_r. reflexivity.
  - unfold add_tags in *. rewrite !for_each_cons, addTag_recorded. cbn [fst snd map].
    rewrite IH, <- app_assoc. reflexivity.
Qed.

Lemma add_words_recorded (lessonId : Z) (ws : list Word) (b : DB) (tr : list Call) :
  exists wordIds : list Z,
    List.length wordIds = List.length ws
    /\ add_words lessonId ws (b, tr)
       = (tt, (snd (add_words lessonId ws b), tr ++ words_calls lessonId ws wordIds)).
Proof.
  revert b tr. induction ws as [|word ws IH]; intros b tr.
  - exists []. cbn. rewrite app_nil_r. auto.
  - unfold add_words in *. rewrite !for_each_cons, !bind_run, addWord_recorded.
    cbn [fst snd].
    set (r := Database.addWord lessonId word b).
    pose proof (add_tags_recorded (fst r) (tags word) (snd r)
                  (tr ++ [CallAddWord lessonId word (fst r)])) as Htags.
    unfold add_tags in Htags. rewrite Htags. cbn [snd].
    match goal with
    | |- context [for_each ws _ (?b2, ?tr2)] => destruct (IH b2 tr2) as [wordIds [Hlen Hrun]]
    end.
    exists (fst r :: wordIds). split; [cbn; lia |].
    rewrite Hrun. unfold words_calls. cbn [combine map List.concat fst snd word_calls].
    rewrite <- !app_assoc. reflexivity.
Qed.

(** The manager's [addLesson] returns what the backend's [addLesson]
    returned. *)
Lemma addLesson_returns_backend_id {S : Type} {d : Database.Database S}
    (lesson : Lesson) (s : S) :
  fst (LessonManager.addLesson lesson s)
  = fst (Database.addLesson (mainName lesson) (subName lesson) s).
Proof.
  unfold LessonManager.addLesson. rewrite !bind_run. reflexivity.
Qed.

(** One [addLesson] on an observed backend: the result and the backend are
    those of the unobserved run, and the trace grows by the lesson's
    calls. *)
Lemma addLesson_recorded_run (lesson : Lesson) (b : DB) (tr : list Call) :
  exists wordIds : list Z,
    List.length wordIds = List.length (words lesson)
    /\ LessonManager.addLesson lesson (b, tr)
       = (fst (LessonManager.addLesson lesson b),
          (snd (LessonManager.addLesson lesson b),
           tr ++ lesson_calls lesson (fst (LessonManager.addLesson lesson b)) wordIds)).
Proof.
  rewrite addLesson_returns_backend_id.
  unfold LessonManager.addLesson. rewrite !bind_run, addLesson_recorded.
  cbn [fst snd].
  set (r := Database.addLesson (mainName lesson) (subName lesson) b).
  destruct (add_words_recorded (fst r) (words lesson) (snd r)
              (tr ++ [CallAddLesson (mainName lesson) (subName lesson) (fst r)]))
    as [wordIds [Hlen Hrun]].
  exists wordIds. split; [exact Hlen |].
  unfold add_words in Hrun. rewrite Hrun.
  unfold lesson_calls, ret. cbn [fst snd]. rewrite <- app_assoc. reflexivity.
Qed.

(** C1: on any backend, [addLesson] makes exactly these calls, in this
    order: [addLesson(mainName, subName)]; then for each word, in order,
    [addWord] with the lesson id that call returned, followed by one
    [addTag] per tag of the word, in order, with the word id that
    [addWord] returned.  It returns the lesson id the backend returned,
    and leaves the backend as the same calls leave it unobserved. *)
Theorem addLesson_calls (lesson : Lesson) (b : DB) (tr : list Call) :
  exists wordIds : list Z,
    let lessonId := fst (Database.addLesson (mainName lesson) (subName lesson) b) in
    List.length wordIds = List.length (words lesson)
    /\ LessonManager.addLesson lesson (b, tr)
       = (lessonId,
          (snd (LessonManager.addLesson lesson b), tr ++ lesson_calls lesson lessonId wordIds))
    /\ fst (LessonManager.addLesson lesson b) = lessonId.
Proof.
  destruct (addLesson_recorded_run lesson b tr) as [wordIds [Hlen Hrun]].
  exists wordIds. cbn zeta.
  rewrite <- (addLesson_returns_backend_id lesson b).
  split; [exact Hlen | split; [exact Hrun | reflexivity]].
Qed.

(** C4: [addLessons] is [addLesson] on the first lesson, then on the
    second, and so on, each starting where the previous one ended; so the
    trace grows by one block of calls per lesson, in order, each block
    being the calls of [addLesson] for that lesson. *)
Theorem addLessons_calls (lessons : list Lesson) (b : DB) (tr : list Call) :
  LessonManager.addLessons lessons (b, tr)
  = (tt, fold_left (fun s lesson => snd (LessonManager.addLesson lesson s)) lessons (b, tr))
  /\ exists blocks : list (list Call),
       Forall2 is_lesson_block lessons blocks
       /\ LessonManager.addLessons lessons (b, tr)
          = (tt, (snd (LessonManager.addLessons lessons b), tr ++ List.concat blocks)).
Proof.
  revert b tr. induction lessons as [|lesson lessons IH]; intros b tr.
  - split; [reflexivity |]. exists []. split; [constructor |].
    cbn. rewrite app_nil_r. reflexivity.
  - unfold LessonManager.addLessons in *. rewrite !for_each_cons, !bind_run.
    rewrite !ret_run. cbn [snd fold_left].
    destruct (addLesson_recorded_run lesson b tr) as [wordIds [Hlen Hrun]].
    rewrite Hrun. cbn [snd].
    match goal with
    | |- context [for_each lessons _ (?b2, ?tr2)] =>
        destruct (IH b2 tr2) as [Hfold [blocks [Hall Hrest]]]
    end.
    split; [rewrite Hfold; reflexivity |].
    exists (lesson_calls lesson (fst (LessonManager.addLesson lesson b)) wordIds :: blocks).
    split.
    + constructor; [| exact Hall]. eexists _, wordIds. split; [exact Hlen | reflexivity].
    + rewrite Hrest. cbn [List.concat]. rewrite <- app_assoc. reflexivity.
Qed.

(** The case of two lessons, on any backend. *)
Lemma addLessons_two (lesson1 lesson2 : Lesson) (b : DB) :
  LessonManager.addLessons [lesson1; lesson2] b
  = (LessonManager.addLesson lesson1 ;; LessonManager.addLesson lesson2 ;; ret tt) b.
Proof.
  unfold LessonManager.addLessons. rewrite !for_each_cons, !bind_run. reflexivity.
Qed.

(** C9: [renameLessons] makes one [updateLesson] call per lesson, in
    order, with the lesson's id, main name and sub name, and no other
    call; the words of the lessons play no part. *)
Theorem renameLessons_calls (lessons : list Lesson) (b : DB) (tr : list Call) :
  LessonManager.renameLessons lessons (b, tr)
  = (tt,
     (snd (LessonManager.renameLessons lessons b),
      tr ++ map (fun lesson =>
                   CallUpdateLesson (Lesson_id lesson) (mainName lesson) (subName lesson))
                lessons)).
Proof.
  revert b tr. induction lessons as [|lesson lessons IH]; intros b tr.
  - cbn. rewrite app_nil_r. reflexivity.
  - unfold LessonManager.renameLessons in *.
    rewrite !for_each_cons, updateLesson_recorded. cbn [fst snd map].
    rewrite IH, <- app_assoc. reflexivity.
Qed.

(** C3: [getAllLessons] returns what the backend's [getAllLessons]
    returns, and that call is the only one the backend receives. *)
Theorem getAllLessons_pass_through (b : DB) (tr : list Call) :
  LessonManager.getAllLessons b = Database.getAllLessons b
  /\ LessonManager.getAllLessons (b, tr)
     = (fst (Database.getAllLessons b),
        (snd (Database.getAllLessons b),
         tr ++ [CallGetAllLessons (fst (Database.getAllLessons b))])).
Proof.
  split; [reflexivity |].
  unfold LessonManager.getAllLessons. cbn [Database.getAllLessons Recorder].
  apply recorded_run.
Qed.

End ManagerFacts.

(** The scenarios of [LessonManagerTest.cpp], run against the scripted
    mock: the calls it expects are the calls made, and the result is the
    id the mock returned. *)
Module LessonManagerTestFacts.
Import LessonManagerTest.

Example test_AddLesson :
  LessonManager.addLesson lesson (mock [1; 2; 3] [])
  = (1, (MockDatabase.mk [] [],
         [CallAddLesson "Main Name" "Sub Name" 1;
          CallAddWord 1 word1 2; CallAddTag 2 "tag1";
          CallAddWord 1 word2 3; CallAddTag 3 "tag2"])).
Proof. reflexivity. Qed.

Example test_AddLessons :
  LessonManager.addLessons [lesson1; lesson2] (mock [1; 2; 3; 4] [])
  = (tt, (MockDatabase.mk [] [],
          [CallAddLesson "Main Name 1" "Sub Name 1" 1;
           CallAddWord 1 (bare "tag1") 2; CallAddTag 2 "tag1";
           CallAddLesson "Main Name 2" "Sub Name 2" 3;
           CallAddWord 3 (bare "tag2") 4; CallAddTag 4 "tag2"])).
Proof. reflexivity. Qed.

Example test_RenameLessons :
  LessonManager.renameLessons renamed (mock [] [])
  = (tt, (MockDatabase.mk [] [],
          [CallUpdateLesson 1 "Main Name 1" "Sub Name 1";
           CallUpdateLesson 2 "Main Name 2" "Sub Name 2"])).
Proof. reflexivity. Qed.

Example test_GetAllLessons :
  LessonManager.getAllLessons (mock [] renamed)
  = (renamed, (MockDatabase.mk [] renamed, [CallGetAllLessons renamed])).
Proof. reflexivity. Qed.

End LessonManagerTestFacts.

(** ** The quiz session engine *)

Lemma nth_error_inserted {X : Type} (l : list X) (x : X) (i : nat) :
  (i <= List.length l)%nat -> nth_error (firstn i l ++ x :: skipn i l) i = Some x.
Proof.
  intros Hi.
  assert (Hlen : List.length (firstn i l) = i) by (rewrite length_firstn; lia).
  rewrite nth_error_app2 by lia.
  rewrite Hlen, Nat.sub_diag. reflexivity.
Qed.

Module quizFacts.
Import quiz.



Section EngineFacts.

Variable shuffle : list Flashcard -> list Flashcard.
Variable sample : Flashcard -> list string -> list string.
Variable place : Flashcard -> nat -> nat.
Variable promote : Flashcard -> bool.

(** The queries leave the engine as it is. *)
Lemma queries_change_nothing (queries : list Query) (q : VocabularyQuiz) :
  fold_left query queries q = q.
Proof.
  induction queries as [|what queries IH]; cbn; auto.
Qed.

(** A question, once asked, has at the recorded index what the resolver
    returns for its card. *)
Lemma ask_places_resolved_word (q : VocabularyQuiz) (card : Flashcard) :
  nth_error (options (ask sample place q card)) (correctAnswerIndex (ask sample place q card))
  = Some (getCorrectWord card).
Proof.
  unfold ask. cbn [options correctAnswerIndex].
  apply nth_error_inserted. apply Nat.le_min_r.
Qed.

Lemma present_in_progress (q : VocabularyQuiz) :
  status (present sample place q) = InProgress ->
  exists card,
    nth_error (deck (present sample place q)) (cursor (present sample place q)) = Some card
    /\ nth_error (options (present sample place q)) (correctAnswerIndex (present sample place q))
       = Some (getCorrectWord card).
Proof.
  unfold present. destruct (nth_error (deck q) (cursor q)) as [card|] eqn:Hcard.
  - intros _. exists card. split; [exact Hcard | apply ask_places_resolved_word].
  - cbn. discriminate.
Qed.

(** With the draft's resolver in the engine, every question in progress
    has a current flashcard and shows, at the recorded index, what that
    resolver returns for it. *)
Lemma reached_in_progress (lessons : list Lesson) (commands : list Command) :
  let q := reached shuffle sample place promote lessons commands in
  status q = InProgress ->
  exists card,
    nth_error (deck q) (cursor q) = Some card
    /\ nth_error (options q) (correctAnswerIndex q) = Some (getCorrectWord card).
Proof.
  unfold reached. induction commands as [|c commands IH] using rev_ind.
  - cbn. discriminate.
  - rewrite fold_left_app. cbn [fold_left].
    set (q := fold_left (run shuffle sample place promote) commands (create lessons)) in *.
    destruct c as [| selectedLabel | what]; cbn [run].
    + unfold start. apply present_in_progress.
    + unfold advance. destruct (status q) eqn:Hstatus.
      * rewrite Hstatus. discriminate.
      * apply present_in_progress.
      * rewrite Hstatus. discriminate.
    + exact IH.
Qed.

End EngineFacts.

(** The test lesson, quizzed in deck order with every candidate as a
    distractor and the resolved word placed last: the first question
    shows the translation of the first word where the romaji is due. *)
Example first_question_shows_translation :
  let q := reached (fun cards => cards) (fun _ pool => pool) (fun _ n => n) (fun _ => true)
             LessonManagerTest.stored [Start; Ask GetCurrentOptions] in
  status q = InProgress
  /\ getCurrentQuestion q = "translation1"%string
  /\ getCurrentOptions q = ["translation2"; "translation1"]%string
  /\ nth_error (getCurrentOptions q) (getCorrectAnswerIndex q) = Some "translation1"%string.
Proof. repeat split; reflexivity. Qed.

End quizFacts.


(** ** More of the storage backend *)

Module LessonsDatabaseMore.
Import LessonsDatabase.

(** A [WHERE id = ?] that matches no row: the update is the identity. *)
Lemma map_if_absent {R : Type} (key : R -> Z) (f : R -> R) (id : Z) (rows : list R) :
  ~ In id (map key rows) ->
  map (fun r => if key r =? id then f r else r) rows = rows.
Proof.
  induction rows as [|r rows IH]; cbn [map In]; intros Habsent; [reflexivity |].
  destruct (Z.eqb_spec (key r) id) as [Heq | Hne].
  - exfalso. apply Habsent. left. exact Heq.
  - rewrite IH; [reflexivity |]. intros Hin. apply Habsent. right. exact Hin.
Qed.

(** ... and the delete removes nothing. *)
Lemma filter_if_absent {R : Type} (key : R -> Z) (id : Z) (rows : list R) :
  ~ In id (map key rows) ->
  filter (fun r => negb (key r =? id)) rows = rows.
Proof.
  induction rows as [|r rows IH]; cbn [map In filter]; intros Habsent; [reflexivity |].
  destruct (Z.eqb_spec (key r) id) as [Heq | Hne]; cbn [negb].
  - exfalso. apply Habsent. left. exact Heq.
  - rewrite IH; [reflexivity |]. intros Hin. apply Habsent. right. exact Hin.
Qed.

Lemma sqlite3_eta (d : sqlite3) :
  {| lessons := lessons d; words_table := words_table d; tags_table := tags_table d;
     seq_lessons := seq_lessons d; seq_words := seq_words d; seq_tags := seq_tags d;
     last_insert_rowid := last_insert_rowid d |} = d.
Proof. destruct d; reflexivity. Qed.

(** X1: [addWord] never fails otherwise than by its result.  Not
    prepared: -1, nothing changes, nothing is logged.  Failed step: -1,
    the store is as it was, one PROBLEM line.  Successful insert whose
    rowid fits an [int]: a positive id no word row had; the row appended
    carries the given lesson id and the word's four texts; no tag row is
    written, whatever tags the word carries; one INFO line. *)
Theorem addWord_result (lessonId : Z) (word : Word) (self : t) :
  addWord PrepareFails lessonId word self = (-1, self)
  /\ (forall errmsg,
        addWord (StepFails errmsg) lessonId word self
        = (-1, {| db := db self;
                  m_logger := m_logger self
                    ++ [("Database: SQL error while adding word: " +++ errmsg, PROBLEM)] |}))
  /\ (next_rowid (seq_words (db self)) (map words_id (words_table (db self))) <= INT_MAX ->
      let r := addWord Done lessonId word self in
      let wordId := fst r in
      0 < wordId
      /\ ~ In wordId (map words_id (words_table (db self)))
      /\ words_table (db (snd r))
         = words_table (db self)
           ++ [mk_words_row wordId lessonId (c_str (kana word)) (c_str (translation word))
                 (Some (c_str (romaji word))) (Some (c_str (exampleSentence word)))]
      /\ lessons (db (snd r)) = lessons (db self)
      /\ tags_table (db (snd r)) = tags_table (db self)
      /\ m_logger (snd r)
         = m_logger self
           ++ [("Database: Added word with ID " +++ to_string wordId
                +++ " to lesson ID " +++ to_string lessonId, INFO)]).
Proof.
  split; [reflexivity | split; [reflexivity |]].
  intros Hfits.
  cbn -[next_rowid static_cast_int to_string String.append c_str].
  set (rowid := next_rowid _ _) in *.
  assert (Hpos : 0 < rowid) by apply next_rowid_positive.
  assert (Hcast : static_cast_int rowid = rowid)
    by (apply static_cast_int_small; unfold INT_MAX in *; lia).
  rewrite Hcast.
  repeat split; auto.
  apply next_rowid_fresh.
Qed.

(** A third word for the populated store, carrying a tag. *)
Lemma addWord_result_witness :
  let self := LessonManagerTest.populated in
  next_rowid (seq_words (db self)) (map words_id (words_table (db self))) <= INT_MAX
  /\ tags_table (db (snd (addWord Done 1 LessonManagerTest.word1 self))) = tags_table (db self).
Proof.
  cbn zeta.
  assert (H : next_rowid (seq_words (db LessonManagerTest.populated))
                (map words_id (words_table (db LessonManagerTest.populated))) <= INT_MAX)
    by (vm_compute; discriminate).
  split; [exact H |].
  exact (proj1 (proj2 (proj2 (proj2 (proj2 (proj2 (proj2
           (addWord_result 1 LessonManagerTest.word1 LessonManagerTest.populated)) H)))))).
Defined.

(** X2: [updateLesson] whose statement runs keeps every lesson row's id
    and the [words] and [tags] tables, and at each position of the
    [lessons] table leaves the row as it was unless its id is [lessonId],
    in which case both names are the new ones. *)
Theorem updateLesson_replaces_names (lessonId : Z) (newMainName newSubName : string)
    (self : t) :
  let after := updateLesson Done lessonId newMainName newSubName self in
  words_table (db after) = words_table (db self)
  /\ tags_table (db after) = tags_table (db self)
  /\ map lessons_id (lessons (db after)) = map lessons_id (lessons (db self))
  /\ List.length (lessons (db after)) = List.length (lessons (db self))
  /\ map (fun r => if lessons_id r =? lessonId
                   then mk_lessons_row (lessons_id r) (c_str newMainName) (c_str newSubName)
                   else r) (lessons (db self))
     = lessons (db after)
  /\ getLessonNames ScanDone after
     = map (fun r => if lessons_id r =? lessonId
                     then c_str newMainName +++ " - " +++ c_str newSubName
                     else c_str (lessons_main_name r) +++ " - " +++ c_str (lessons_sub_name r))
           (lessons (db self)).
Proof.
  cbn -[to_string String.append c_str].
  split; [reflexivity | split; [reflexivity |]].
  split; [| split; [| split]].
  - rewrite map_map. apply map_ext. intros r. destruct (lessons_id r =? lessonId); reflexivity.
  - apply length_map.
  - reflexivity.
  - unfold getLessonNames. cbn -[String.append c_str].
    rewrite map_map. apply map_ext. intros r.
    destruct (lessons_id r =? lessonId); cbn -[String.append c_str];
      rewrite ?c_str_idempotent; reflexivity.
Qed.

(** X3: an update by an id no row has changes no row, whatever the engine
    answers; yet once the statement is prepared and stepped the INFO line
    "Updated ..." is logged as for a real update. *)
Theorem update_of_missing_id (id : Z) (newMainName newSubName : string) (updatedWord : Word)
    (self : t) :
  (~ In id (map lessons_id (lessons (db self))) ->
   (forall o, db (updateLesson o id newMainName newSubName self) = db self)
   /\ m_logger (updateLesson Done id newMainName newSubName self)
      = m_logger self
        ++ [("Database: Updated lesson ID " +++ to_string id +++ " to mainName: "
             +++ newMainName +++ ", subName: " +++ newSubName, INFO)])
  /\ (~ In id (map words_id (words_table (db self))) ->
      (forall o, db (updateWord o id updatedWord self) = db self)
      /\ m_logger (updateWord Done id updatedWord self)
         = m_logger self ++ [("Database: Updated word ID " +++ to_string id, INFO)]).
Proof.
  split; intros Habsent; (split; [| reflexivity]).
  - intros [| errmsg |]; try reflexivity.
    cbn -[to_string String.append c_str]. unfold UPDATE_lessons.
    rewrite (map_if_absent lessons_id _ id _ Habsent). apply sqlite3_eta.
  - intros [| errmsg |]; try reflexivity.
    cbn -[to_string String.append c_str]. unfold UPDATE_words.
    rewrite (map_if_absent words_id _ id _ Habsent). apply sqlite3_eta.
Qed.

(** Lesson 7 and word 7 are not in the populated store. *)
Lemma update_of_missing_id_witness :
  let self := LessonManagerTest.populated in
  (~ In 7 (map lessons_id (lessons (db self))))
  /\ (~ In 7 (map words_id (words_table (db self))))
  /\ db (updateLesson Done 7 "Main" "Sub" self) = db self
  /\ db (updateWord Done 7 LessonManagerTest.word1 self) = db self.
Proof.
  cbn zeta.
  assert (H1 : ~ In 7 (map lessons_id (lessons (db LessonManagerTest.populated))))
    by (cbn; intros [H | []]; discriminate H).
  assert (H2 : ~ In 7 (map words_id (words_table (db LessonManagerTest.populated))))
    by (cbn; intros [H | [H | []]]; discriminate H).
  split; [exact H1 | split; [exact H2 |]].
  pose proof (update_of_missing_id 7 "Main" "Sub" LessonManagerTest.word1
                LessonManagerTest.populated) as [HL HW].
  split; [exact (proj1 (HL H1) Done) | exact (proj1 (HW H2) Done)].
Defined.

(** X4: a [deleteWord] whose statement runs removes the word rows with
    that id and nothing else: the other word rows stay in order, and the
    [lessons] and [tags] tables are untouched, so the tag rows of the
    deleted word remain. *)
Theorem deleteWord_removes_only_the_word_row (wordId : Z) (self : t) :
  let after := deleteWord Done wordId self in
  ~ In wordId (map words_id (words_table (db after)))
  /\ words_table (db after)
     = filter (fun r => negb (words_id r =? wordId)) (words_table (db self))
  /\ lessons (db after) = lessons (db self)
  /\ tags_table (db after) = tags_table (db self)
  /\ SELECT_tags_WHERE_word_id wordId (db after) = SELECT_tags_WHERE_word_id wordId (db self).
Proof.
  cbn -[to_string String.append]. repeat split; auto.
  rewrite in_map_iff. intros [r [Hid Hin]].
  apply filter_In in Hin. destruct Hin as [_ Hne].
  rewrite Hid, Z.eqb_refl in Hne. discriminate.
Qed.

(** X5: a delete by an id no row has changes no row, whatever the engine
    answers; yet once the statement is prepared and stepped the INFO line
    "Deleted ..." is logged as for a real delete. *)
Theorem delete_of_missing_id (id : Z) (self : t) :
  (~ In id (map lessons_id (lessons (db self))) ->
   (forall o, db (deleteLesson o id self) = db self)
   /\ m_logger (deleteLesson Done id self)
      = m_logger self ++ [("Database: Deleted lesson ID " +++ to_string id, INFO)])
  /\ (~ In id (map words_id (words_table (db self))) ->
      (forall o, db (deleteWord o id self) = db self)
      /\ m_logger (deleteWord Done id self)
         = m_logger self ++ [("Database: Deleted word ID " +++ to_string id, INFO)]).
Proof.
  split; intros Habsent; (split; [| reflexivity]).
  - intros [| errmsg |]; try reflexivity.
    cbn -[to_string String.append]. unfold DELETE_FROM_lessons.
    rewrite (filter_if_absent lessons_id id _ Habsent). apply sqlite3_eta.
  - intros [| errmsg |]; try reflexivity.
    cbn -[to_string String.append]. unfold DELETE_FROM_words.
    rewrite (filter_if_absent words_id id _ Habsent). apply sqlite3_eta.
Qed.

(** Lesson 7 and word 7 are not in the populated store. *)
Lemma delete_of_missing_id_witness :
  let self := LessonManagerTest.populated in
  (~ In 7 (map lessons_id (lessons (db self))))
  /\ (~ In 7 (map words_id (words_table (db self))))
  /\ db (deleteLesson Done 7 self) = db self
  /\ db (deleteWord Done 7 self) = db self.
Proof.
  cbn zeta.
  assert (H1 : ~ In 7 (map lessons_id (lessons (db LessonManagerTest.populated))))
    by (cbn; intros [H | []]; discriminate H).
  assert (H2 : ~ In 7 (map words_id (words_table (db LessonManagerTest.populated))))
    by (cbn; intros [H | [H | []]]; discriminate H).
  split; [exact H1 | split; [exact H2 |]].
  pose proof (delete_of_missing_id 7 LessonManagerTest.populated) as [HL HW].
  split; [exact (proj1 (HL H1) Done) | exact (proj1 (HW H2) Done)].
Defined.

(** *** Rowids *)

Lemma table_ids_sound_insert (seq : Z) (ids : list Z) :
  table_ids_sound seq ids ->
  table_ids_sound (next_rowid seq ids) (ids ++ [next_rowid seq ids]).
Proof.
  intros [Hnodup Hrange]. pose proof (next_rowid_fresh seq ids) as Hfresh.
  pose proof (next_rowid_positive seq ids) as Hpos.
  split.
  - apply NoDup_app; [exact Hnodup | constructor; [intros [] | constructor] |].
    intros id Hin [Heq | []]. subst id. contradiction.
  - apply Forall_app. split.
    + eapply Forall_impl; [| exact Hrange]. cbn. intros id Hid.
      unfold next_rowid. lia.
    + constructor; [lia | constructor].
Qed.

Lemma table_ids_sound_delete (seq id : Z) (ids : list Z) :
  table_ids_sound seq ids ->
  table_ids_sound seq (filter (fun z => negb (z =? id)) ids).
Proof.
  intros [Hnodup Hrange]. split.
  - apply NoDup_filter. exact Hnodup.
  - apply Forall_forall. intros z Hz. apply filter_In in Hz.
    rewrite Forall_forall in Hrange. apply Hrange. tauto.
Qed.

Lemma rowids_sound_empty : rowids_sound (db empty).
Proof.
  repeat split; constructor.
Qed.

Lemma INSERT_INTO_lessons_sound (main_name sub_name : string) (d : sqlite3) :
  rowids_sound d -> rowids_sound (INSERT_INTO_lessons main_name sub_name d).
Proof.
  intros [HL [HW HT]]. unfold rowids_sound, INSERT_INTO_lessons.
  cbn [lessons words_table tags_table seq_lessons seq_words seq_tags].
  rewrite map_app. cbn [map lessons_id].
  split; [apply table_ids_sound_insert; exact HL | split; assumption].
Qed.

Lemma INSERT_INTO_words_sound (lesson_id : Z) (k t r e : string) (d : sqlite3) :
  rowids_sound d -> rowids_sound (INSERT_INTO_words lesson_id k t r e d).
Proof.
  intros [HL [HW HT]]. unfold rowids_sound, INSERT_INTO_words.
  cbn [lessons words_table tags_table seq_lessons seq_words seq_tags].
  rewrite map_app. cbn [map words_id].
  split; [exact HL | split; [apply table_ids_sound_insert; exact HW | exact HT]].
Qed.

Lemma INSERT_INTO_tags_sound (word_id : Z) (tag : string) (d : sqlite3) :
  rowids_sound d -> rowids_sound (INSERT_INTO_tags word_id tag d).
Proof.
  intros [HL [HW HT]]. unfold rowids_sound, INSERT_INTO_tags.
  cbn [lessons words_table tags_table seq_lessons seq_words seq_tags].
  rewrite map_app. cbn [map tags_id].
  split; [exact HL | split; [exact HW | apply table_ids_sound_insert; exact HT]].
Qed.

Lemma UPDATE_lessons_ids (main_name sub_name : string) (id : Z) (d : sqlite3) :
  map lessons_id (lessons (UPDATE_lessons main_name sub_name id d)) = map lessons_id (lessons d).
Proof.
  unfold UPDATE_lessons. cbn [lessons]. rewrite map_map. apply map_ext.
  intros r. destruct (lessons_id r =? id); reflexivity.
Qed.

Lemma UPDATE_words_ids (k t r e : string) (id : Z) (d : sqlite3) :
  map words_id (words_table (UPDATE_words k t r e id d)) = map words_id (words_table d).
Proof.
  unfold UPDATE_words. cbn [words_table]. rewrite map_map. apply map_ext.
  intros row. destruct (words_id row =? id); reflexivity.
Qed.

Lemma DELETE_FROM_lessons_ids (id : Z) (d : sqlite3) :
  map lessons_id (lessons (DELETE_FROM_lessons id d))
  = filter (fun z => negb (z =? id)) (map lessons_id (lessons d)).
Proof.
  unfold DELETE_FROM_lessons. cbn [lessons]. rewrite filter_map_swap. reflexivity.
Qed.

Lemma DELETE_FROM_words_ids (id : Z) (d : sqlite3) :
  map words_id (words_table (DELETE_FROM_words id d))
  = filter (fun z => negb (z =? id)) (map words_id (words_table d)).
Proof.
  unfold DELETE_FROM_words. cbn [words_table]. rewrite filter_map_swap. reflexivity.
Qed.

Lemma perform_sound (op : Operation) (self : t) :
  rowids_sound (db self) -> rowids_sound (db (perform self op)).
Proof.
  intros Hsound.
  destruct op as [o m s | o l w | o w g | o l m s | o w u | o l | o w];
    destruct o as [| errmsg |]; try exact Hsound; cbn [perform].
  - apply INSERT_INTO_lessons_sound. exact Hsound.
  - apply INSERT_INTO_words_sound. exact Hsound.
  - apply INSERT_INTO_tags_sound. exact Hsound.
  - destruct Hsound as [HL [HW HT]]. unfold rowids_sound.
    cbn -[UPDATE_lessons to_string String.append].
    rewrite UPDATE_lessons_ids. repeat split; assumption || apply HL || apply HW || apply HT.
  - destruct Hsound as [HL [HW HT]]. unfold rowids_sound.
    cbn -[UPDATE_words to_string String.append].
    rewrite UPDATE_words_ids. repeat split; assumption || apply HL || apply HW || apply HT.
  - destruct Hsound as [HL [HW HT]]. unfold rowids_sound.
    cbn -[DELETE_FROM_lessons to_string String.append].
    rewrite DELETE_FROM_lessons_ids.
    split; [apply table_ids_sound_delete; exact HL | split; assumption].
  - destruct Hsound as [HL [HW HT]]. unfold rowids_sound.
    cbn -[DELETE_FROM_words to_string String.append].
    rewrite DELETE_FROM_words_ids.
    split; [exact HL | split; [apply table_ids_sound_delete; exact HW | exact HT]].
Qed.

(** X6: in every store reached from a fresh database by any sequence of
    [addLesson], [addWord], [addTag], [updateLesson], [updateWord],
    [deleteLesson] and [deleteWord] calls, whatever the engine answers to
    each, the ids of each table are positive and pairwise distinct, and
    none is beyond the table's sequence counter. *)
Theorem rowids_stay_sound (ops : list Operation) :
  let d := db (perform_all ops empty) in
  NoDup (map lessons_id (lessons d))
  /\ NoDup (map words_id (words_table d))
  /\ NoDup (map tags_id (tags_table d))
  /\ Forall (fun id => 0 < id <= seq_lessons d) (map lessons_id (lessons d))
  /\ Forall (fun id => 0 < id <= seq_words d) (map words_id (words_table d))
  /\ Forall (fun id => 0 < id <= seq_tags d) (map tags_id (tags_table d)).
Proof.
  assert (Hsound : rowids_sound (db (perform_all ops empty))).
  { unfold perform_all. induction ops as [|op ops IH] using rev_ind.
    - exact rowids_sound_empty.
    - rewrite fold_left_app. cbn [fold_left]. apply perform_sound. exact IH. }
  destruct Hsound as [[? ?] [[? ?] [? ?]]]. cbn zeta. tauto.
Qed.

Lemma next_rowid_beyond_seq (seq : Z) (ids : list Z) : seq < next_rowid seq ids.
Proof. unfold next_rowid. lia. Qed.

Lemma perform_seq_monotone (op : Operation) (self : t) :
  seq_lessons (db self) <= seq_lessons (db (perform self op))
  /\ seq_words (db self) <= seq_words (db (perform self op)).
Proof.
  destruct op as [o m s | o l w | o w g | o l m s | o w u | o l | o w];
    destruct o as [| errmsg |]; cbn -[next_rowid to_string String.append c_str];
    try (split; apply Z.le_refl).
  - split; [| apply Z.le_refl]. apply Z.lt_le_incl, next_rowid_beyond_seq.
  - split; [apply Z.le_refl |]. apply Z.lt_le_incl, next_rowid_beyond_seq.
Qed.

Lemma perform_all_seq_monotone (ops : list Operation) (self : t) :
  seq_lessons (db self) <= seq_lessons (db (perform_all ops self))
  /\ seq_words (db self) <= seq_words (db (perform_all ops self)).
Proof.
  unfold perform_all. revert self. induction ops as [|op ops IH]; intros self; cbn [fold_left].
  - split; apply Z.le_refl.
  - destruct (perform_seq_monotone op self) as [HL HW].
    destruct (IH (perform self op)) as [HL' HW']. split; lia.
Qed.

(** X7: ids are never handed out twice.  Whatever operations are performed
    after a successful [addLesson] (deleting that very lesson included), a
    later successful [addLesson] whose rowid fits an [int] returns a
    strictly greater id; and likewise for [addWord]. *)
Theorem ids_are_never_reused (mainName subName mainName' subName' : string)
    (lessonId lessonId' : Z) (word word' : Word) (ops : list Operation) (self : t) :
  (let first := addLesson Done mainName subName self in
   let later := perform_all ops (snd first) in
   next_rowid (seq_lessons (db later)) (map lessons_id (lessons (db later))) <= INT_MAX ->
   fst first < fst (addLesson Done mainName' subName' later))
  /\ (let first := addWord Done lessonId word self in
      let later := perform_all ops (snd first) in
      next_rowid (seq_words (db later)) (map words_id (words_table (db later))) <= INT_MAX ->
      fst first < fst (addWord Done lessonId' word' later)).
Proof.
  split; cbn zeta; intros Hfits.
  - set (first := addLesson Done mainName subName self) in *.
    destruct (perform_all_seq_monotone ops (snd first)) as [Hmono _].
    set (later := perform_all ops (snd first)) in *.
    cbn -[next_rowid static_cast_int to_string String.append c_str] in Hmono |- *.
    set (rowid1 := next_rowid (seq_lessons (db self)) _) in *.
    set (rowid2 := next_rowid (seq_lessons (db later)) _) in *.
    assert (H1 : 0 < rowid1) by apply next_rowid_positive.
    assert (H2 : seq_lessons (db later) < rowid2) by apply next_rowid_beyond_seq.
    rewrite !static_cast_int_small by (unfold INT_MAX in *; lia). lia.
  - set (first := addWord Done lessonId word self) in *.
    destruct (perform_all_seq_monotone ops (snd first)) as [_ Hmono].
    set (later := perform_all ops (snd first)) in *.
    cbn -[next_rowid static_cast_int to_string String.append c_str] in Hmono |- *.
    set (rowid1 := next_rowid (seq_words (db self)) _) in *.
    set (rowid2 := next_rowid (seq_words (db later)) _) in *.
    assert (H1 : 0 < rowid1) by apply next_rowid_positive.
    assert (H2 : seq_words (db later) < rowid2) by apply next_rowid_beyond_seq.
    rewrite !static_cast_int_small by (unfold INT_MAX in *; lia). lia.
Qed.

(** A second lesson added to the populated store and deleted again: the
    next lesson does not get its id back. *)
Lemma ids_are_never_reused_witness :
  let first := addLesson Done "Main Name 2" "Sub Name 2" LessonManagerTest.populated in
  let later := perform_all [OpDeleteLesson Done (fst first)] (snd first) in
  next_rowid (seq_lessons (db later)) (map lessons_id (lessons (db later))) <= INT_MAX
  /\ map lessons_id (lessons (db later)) = [1]
  /\ fst first < fst (addLesson Done "Main Name 3" "Sub Name 3" later).
Proof.
  cbn zeta.
  set (first := addLesson Done "Main Name 2" "Sub Name 2" LessonManagerTest.populated).
  set (later := perform_all [OpDeleteLesson Done (fst first)] (snd first)).
  assert (H : next_rowid (seq_lessons (db later)) (map lessons_id (lessons (db later)))
              <= INT_MAX) by (vm_compute; discriminate).
  split; [exact H | split; [reflexivity |]].
  exact (proj1 (ids_are_never_reused "Main Name 2" "Sub Name 2" "Main Name 3" "Sub Name 3"
                  0 0 LessonManagerTest.word1 LessonManagerTest.word1
                  [OpDeleteLesson Done (fst first)] LessonManagerTest.populated) H).
Defined.

(** *** Writing, then reading *)

(** What the reads return depends on the [words] and [tags] tables
    only. *)
Lemma word_of_row_tables (e : Engine) (x y : t) (r : words_row) :
  tags_table (db x) = tags_table (db y) -> word_of_row e x r = word_of_row e y r.
Proof.
  intros Htags. unfold word_of_row, SELECT_tags_WHERE_word_id. rewrite Htags. reflexivity.
Qed.

Lemma getWordsInLesson_tables (e : Engine) (lessonId : Z) (x y : t) :
  words_table (db x) = words_table (db y) ->
  tags_table (db x) = tags_table (db y) ->
  getWordsInLesson e lessonId x = getWordsInLesson e lessonId y.
Proof.
  intros Hwords Htags. unfold getWordsInLesson, SELECT_words_WHERE_lesson_id.
  rewrite Hwords. apply all_or_none_ext_in. intros r _.
  apply word_of_row_tables. exact Htags.
Qed.

Lemma lesson_of_row_tables (e : Engine) (x y : t) (r : lessons_row) :
  words_table (db x) = words_table (db y) ->
  tags_table (db x) = tags_table (db y) ->
  lesson_of_row e x r = lesson_of_row e y r.
Proof.
  intros Hwords Htags. unfold lesson_of_row.
  rewrite (getWordsInLesson_tables e _ x y Hwords Htags). reflexivity.
Qed.

(** A [WHERE key = ?] that matches no row selects nothing. *)
Lemma filter_none {R : Type} (key : R -> Z) (id : Z) (rows : list R) :
  Forall (fun r => key r <> id) rows -> filter (fun r => key r =? id) rows = [].
Proof.
  induction 1 as [|r rows Hr _ IH]; cbn [filter]; [reflexivity |].
  destruct (Z.eqb_spec (key r) id); [contradiction | exact IH].
Qed.

(** The word a turn of the loop returns carries the id of its row. *)
Lemma word_of_row_id (e : Engine) (self : t) (r : words_row) (w : Word) :
  word_of_row e self r = Some w -> Word_id w = static_cast_int (words_id r).
Proof.
  unfold word_of_row. destruct (words_romaji r), (words_example_sentence r); try discriminate.
  intros H. injection H as <-. reflexivity.
Qed.

Lemma lesson_of_row_id (e : Engine) (self : t) (r : lessons_row) (lesson : Lesson) :
  lesson_of_row e self r = Some lesson -> Lesson_id lesson = static_cast_int (lessons_id r).
Proof.
  unfold lesson_of_row. destruct (getWordsInLesson e _ self); [| discriminate].
  intros H. injection H as <-. reflexivity.
Qed.

Lemma rows_seen_map {A B : Type} (s : Scan) (f : A -> B) (rows : list A) :
  rows_seen s (map f rows) = map f (rows_seen s rows).
Proof.
  destruct s as [| n |]; cbn [rows_seen]; auto. apply firstn_map.
Qed.

Lemma rows_seen_In {A : Type} (s : Scan) (rows : list A) (r : A) :
  In r (rows_seen s rows) -> In r rows.
Proof.
  destruct s as [| n |]; cbn [rows_seen]; [contradiction | | auto].
  intros Hin. rewrite <- (firstn_skipn n rows). apply in_or_app. left. exact Hin.
Qed.

(** X8: after a successful [addLesson], [getAllLessons] returns what it
    returned before, followed by one lesson with the id [addLesson]
    returned and the two names up to their first NUL, its words being
    those [getWordsInLesson] already returned for that id, from the word
    rows that carry it; it has no result exactly when one of the two
    reads had none before.  [getLessonNames] gains the one name, and
    when no word row carries the id the new lesson has no words. *)
Theorem addLesson_then_read (mainName subName : string) (self : t) :
  let r := addLesson Done mainName subName self in
  getAllLessons healthy (snd r)
  = match getAllLessons healthy self, getWordsInLesson healthy (fst r) self with
    | Some before, Some adopted =>
        Some (before
              ++ [ {| Lesson_id := fst r; mainName := c_str mainName;
                      subName := c_str subName; words := adopted |} ])
    | _, _ => None
    end
  /\ getLessonNames ScanDone (snd r)
     = getLessonNames ScanDone self ++ [c_str mainName +++ " - " +++ c_str subName]
  /\ (Forall (fun w => words_lesson_id w <> fst r) (words_table (db self)) ->
      getWordsInLesson healthy (fst r) self = Some []).
Proof.
  cbn zeta.
  set (r := addLesson Done mainName subName self).
  assert (Hwords : words_table (db (snd r)) = words_table (db self)) by reflexivity.
  assert (Htags : tags_table (db (snd r)) = tags_table (db self)) by reflexivity.
  assert (Hlessons : lessons (db (snd r))
                     = lessons (db self)
                       ++ [mk_lessons_row
                             (next_rowid (seq_lessons (db self))
                                (map lessons_id (lessons (db self))))
                             (c_str mainName) (c_str subName)]) by reflexivity.
  assert (Hid : fst r
                = static_cast_int (next_rowid (seq_lessons (db self))
                                     (map lessons_id (lessons (db self))))) by reflexivity.
  split; [| split].
  - unfold getAllLessons. cbn [rows_seen healthy on_lessons].
    rewrite Hlessons, all_or_none_app.
    rewrite (all_or_none_ext_in (lesson_of_row healthy (snd r)) (lesson_of_row healthy self)
               (lessons (db self)))
      by (intros row _; apply lesson_of_row_tables; assumption).
    destruct (all_or_none (lesson_of_row healthy self) (lessons (db self))) as [before|];
      [| reflexivity].
    cbn [all_or_none].
    rewrite (lesson_of_row_tables healthy (snd r) self _ Hwords Htags).
    unfold lesson_of_row. cbn [lessons_id lessons_main_name lessons_sub_name].
    rewrite <- Hid.
    destruct (getWordsInLesson healthy (fst r) self) as [adopted|]; [| reflexivity].
    rewrite !c_str_idempotent. reflexivity.
  - unfold getLessonNames. cbn [rows_seen]. rewrite Hlessons, map_app.
    cbn [map lessons_main_name lessons_sub_name]. rewrite !c_str_idempotent. reflexivity.
  - intros Hnone. unfold getWordsInLesson, SELECT_words_WHERE_lesson_id.
    cbn [rows_seen healthy on_words].
    rewrite (filter_none words_lesson_id (fst r) _ Hnone). reflexivity.
Qed.

(** The populated store has no word row under the id of the next lesson. *)
Lemma addLesson_then_read_witness :
  let r := addLesson Done "Main Name 2" "Sub Name 2" LessonManagerTest.populated in
  Forall (fun w => words_lesson_id w <> fst r) (words_table (db LessonManagerTest.populated))
  /\ getWordsInLesson healthy (fst r) LessonManagerTest.populated = Some [].
Proof.
  cbn zeta.
  assert (H : Forall (fun w => words_lesson_id w
                               <> fst (addLesson Done "Main Name 2" "Sub Name 2"
                                         LessonManagerTest.populated))
                (words_table (db LessonManagerTest.populated)))
    by (repeat constructor; cbn; discriminate).
  split; [exact H |].
  exact (proj2 (proj2 (addLesson_then_read "Main Name 2" "Sub Name 2"
                         LessonManagerTest.populated)) H).
Defined.

(** [getWordsInLesson] over a healthy engine, spelled out on the
    tables. *)
Lemma getWordsInLesson_healthy (lessonId : Z) (self : t) :
  getWordsInLesson healthy lessonId self
  = all_or_none (word_of_row healthy self)
      (filter (fun r => words_lesson_id r =? lessonId) (words_table (db self))).
Proof. reflexivity. Qed.

Lemma addWord_words_table (lessonId : Z) (word : Word) (self : t) :
  words_table (db (snd (addWord Done lessonId word self)))
  = words_table (db self)
    ++ [mk_words_row
          (next_rowid (seq_words (db self)) (map words_id (words_table (db self))))
          lessonId (c_str (kana word)) (c_str (translation word))
          (Some (c_str (romaji word))) (Some (c_str (exampleSentence word)))].
Proof. reflexivity. Qed.

Lemma getWordsInLesson_other_lesson (lessonId other : Z) (word : Word) (self : t) :
  other <> lessonId ->
  getWordsInLesson healthy other (snd (addWord Done lessonId word self))
  = getWordsInLesson healthy other self.
Proof.
  intros Hother. rewrite !getWordsInLesson_healthy, addWord_words_table.
  rewrite filter_app. cbn [filter words_lesson_id].
  destruct (Z.eqb_spec lessonId other) as [Heq | _]; [congruence |].
  rewrite app_nil_r. apply all_or_none_ext_in. intros r _.
  apply word_of_row_tables. reflexivity.
Qed.

(** X9: after a successful [addWord], [getWordsInLesson] of that lesson
    id returns what it returned before, followed by one word with the id
    [addWord] returned, the four texts up to their first NUL, and for tags
    those of the tag rows that already carry that word id, and it has no
    result exactly when it had none before; any other lesson id reads as
    before; and when no lesson row has the lesson id, the word is stored
    all the same and [getAllLessons] does not show it. *)
Theorem addWord_then_read (lessonId : Z) (word : Word) (self : t) :
  let r := addWord Done lessonId word self in
  getWordsInLesson healthy lessonId (snd r)
  = option_map
      (fun before =>
         before
         ++ [ {| Word_id := fst r;
                 kana := c_str (kana word);
                 translation := c_str (translation word);
                 romaji := c_str (romaji word);
                 exampleSentence := c_str (exampleSentence word);
                 tags := map (fun t => c_str (tags_tag t))
                             (SELECT_tags_WHERE_word_id (fst r) (db self)) |} ])
      (getWordsInLesson healthy lessonId self)
  /\ (forall other, other <> lessonId ->
        getWordsInLesson healthy other (snd r) = getWordsInLesson healthy other self)
  /\ (Forall (fun row => static_cast_int (lessons_id row) <> lessonId) (lessons (db self)) ->
      getAllLessons healthy (snd r) = getAllLessons healthy self).
Proof.
  cbn zeta. split; [| split].
  - rewrite !getWordsInLesson_healthy, addWord_words_table.
    rewrite filter_app, all_or_none_app. cbn [filter words_lesson_id].
    rewrite Z.eqb_refl.
    rewrite (all_or_none_ext_in
               (word_of_row healthy (snd (addWord Done lessonId word self)))
               (word_of_row healthy self)
               (filter (fun r => words_lesson_id r =? lessonId) (words_table (db self))))
      by (intros r _; apply word_of_row_tables; reflexivity).
    destruct (all_or_none (word_of_row healthy self)
                (filter (fun r => words_lesson_id r =? lessonId) (words_table (db self))))
      as [before|]; [| reflexivity].
    cbn [all_or_none option_map]. unfold word_of_row at 1.
    cbn [words_id words_kana words_translation words_romaji words_example_sentence
         healthy on_tags rows_seen].
    rewrite !c_str_idempotent. reflexivity.
  - intros other Hother. apply getWordsInLesson_other_lesson. exact Hother.
  - intros Hnone. unfold getAllLessons. cbn [rows_seen healthy on_lessons].
    change (lessons (db (snd (addWord Done lessonId word self)))) with (lessons (db self)).
    apply all_or_none_ext_in. intros row Hrow. unfold lesson_of_row.
    rewrite getWordsInLesson_other_lesson; [reflexivity |].
    rewrite Forall_forall in Hnone. apply Hnone. exact Hrow.
Qed.

(** A word added under -1, the id a failed [addLesson] returns. *)
Lemma addWord_then_read_witness :
  let self := LessonManagerTest.populated in
  let r := addWord Done (-1) LessonManagerTest.word1 self in
  Forall (fun row => static_cast_int (lessons_id row) <> -1) (lessons (db self))
  /\ map words_lesson_id (words_table (db (snd r))) = [1; 1; -1]
  /\ getAllLessons healthy (snd r) = getAllLessons healthy self.
Proof.
  cbn zeta.
  assert (H : Forall (fun row => static_cast_int (lessons_id row) <> -1)
                (lessons (db LessonManagerTest.populated)))
    by (repeat constructor; cbn; discriminate).
  split; [exact H | split; [reflexivity |]].
  exact (proj2 (proj2 (addWord_then_read (-1) LessonManagerTest.word1
                         LessonManagerTest.populated)) H).
Defined.

(** X10: after a successful [addTag], every word [getWordsInLesson]
    returns, for any lesson id, is as before except that the words whose
    id is [wordId] have the tag, up to its first NUL, appended to their
    tags; and it has no result exactly when it had none before. *)
Theorem addTag_then_read (wordId : Z) (tag : string) (lessonId : Z) (self : t) :
  getWordsInLesson healthy lessonId (addTag Done wordId tag self)
  = option_map
      (map (fun w =>
              if Word_id w =? wordId
              then {| Word_id := Word_id w; kana := kana w; translation := translation w;
                      romaji := romaji w; exampleSentence := exampleSentence w;
                      tags := tags w ++ [c_str tag] |}
              else w))
      (getWordsInLesson healthy lessonId self).
Proof.
  rewrite !getWordsInLesson_healthy.
  change (words_table (db (addTag Done wordId tag self))) with (words_table (db self)).
  apply all_or_none_option_map. intros r _.
  unfold word_of_row, SELECT_tags_WHERE_word_id. cbn [healthy on_tags rows_seen].
  change (tags_table (db (addTag Done wordId tag self)))
    with (tags_table (db self)
          ++ [mk_tags_row (next_rowid (seq_tags (db self)) (map tags_id (tags_table (db self))))
                wordId (c_str tag)]).
  destruct (words_romaji r), (words_example_sentence r); try reflexivity.
  cbn [option_map Word_id kana translation romaji exampleSentence tags].
  rewrite filter_app, map_app. cbn [filter tags_word_id].
  rewrite (Z.eqb_sym wordId).
  destruct (static_cast_int (words_id r) =? wordId).
  - cbn [map tags_tag]. rewrite c_str_idempotent. reflexivity.
  - cbn [map]. rewrite app_nil_r. reflexivity.
Qed.

(** X11: in a store whose lesson ids fit an [int], when [getAllLessons]
    returns, after a [deleteLesson] whose statement runs it returns the
    lessons it returned before without those of that id, the others with
    their words and tags as before; the words of the deleted lesson are
    out of its sight, yet [getWordsInLesson] of the deleted id reads them
    as before. *)
Theorem deleteLesson_then_read (lessonId : Z) (self : t)
    (Hfit : Forall (fun row => fits_int (lessons_id row)) (lessons (db self))) :
  let after := deleteLesson Done lessonId self in
  (forall before : list Lesson,
     getAllLessons healthy self = Some before ->
     getAllLessons healthy after
     = Some (filter (fun lesson => negb (Lesson_id lesson =? lessonId)) before))
  /\ getWordsInLesson healthy lessonId after = getWordsInLesson healthy lessonId self.
Proof.
  cbn zeta. split; [| reflexivity].
  intros before Hread. unfold getAllLessons in *. cbn [rows_seen healthy on_lessons] in *.
  change (lessons (db (deleteLesson Done lessonId self)))
    with (filter (fun r => negb (lessons_id r =? lessonId)) (lessons (db self))).
  rewrite (all_or_none_ext_in (lesson_of_row healthy (deleteLesson Done lessonId self))
             (lesson_of_row healthy self))
    by (intros row _; apply lesson_of_row_tables; reflexivity).
  apply all_or_none_filter; [exact Hread |].
  intros row lesson Hrow Hlesson.
  rewrite (lesson_of_row_id _ _ _ _ Hlesson).
  rewrite Forall_forall in Hfit. rewrite static_cast_int_small; [reflexivity |].
  apply Hfit. exact Hrow.
Qed.

(** The populated store loses its lesson; the two words can still be read
    by the lesson's id. *)
Lemma deleteLesson_then_read_witness :
  let self := LessonManagerTest.populated in
  Forall (fun row => fits_int (lessons_id row)) (lessons (db self))
  /\ getAllLessons healthy self = Some LessonManagerTest.stored
  /\ getAllLessons healthy (deleteLesson Done 1 self) = Some []
  /\ option_map (@List.length Word) (getWordsInLesson healthy 1 (deleteLesson Done 1 self))
     = Some 2%nat.
Proof.
  cbn zeta.
  assert (H : Forall (fun row => fits_int (lessons_id row))
                (lessons (db LessonManagerTest.populated)))
    by (repeat constructor; cbn; discriminate).
  split; [exact H | split; [reflexivity |]].
  destruct (deleteLesson_then_read 1 LessonManagerTest.populated H) as [Hall Hwords].
  split; [exact (Hall LessonManagerTest.stored eq_refl) | rewrite Hwords; reflexivity].
Defined.

(** The word a read over any engine returns for a row, from the word a
    healthy engine returns for it: the same, with the tags the scan of
    [tags] got to. *)
Lemma word_of_row_scan (e : Engine) (self : t) (r : words_row) (w : Word) :
  word_of_row healthy self r = Some w ->
  word_of_row e self r
  = Some {| Word_id := Word_id w; kana := kana w; translation := translation w;
            romaji := romaji w; exampleSentence := exampleSentence w;
            tags := rows_seen (on_tags e (Word_id w)) (tags w) |}.
Proof.
  unfold word_of_row. destruct (words_romaji r), (words_example_sentence r); try discriminate.
  intros H. injection H as <-.
  cbn [Word_id kana translation romaji exampleSentence tags healthy on_tags rows_seen].
  rewrite rows_seen_map. reflexivity.
Qed.

Lemma getWordsInLesson_scan (e : Engine) (self : t) (lessonId : Z) (found : list Word) :
  getWordsInLesson healthy lessonId self = Some found ->
  getWordsInLesson e lessonId self
  = Some (rows_seen (on_words e lessonId)
            (map (fun w =>
                    {| Word_id := Word_id w; kana := kana w; translation := translation w;
                       romaji := romaji w; exampleSentence := exampleSentence w;
                       tags := rows_seen (on_tags e (Word_id w)) (tags w) |})
                 found)).
Proof.
  intros Hread. unfold getWordsInLesson in *. cbn [healthy on_words rows_seen] in Hread.
  apply all_or_none_rows_seen.
  rewrite <- (map_id (SELECT_words_WHERE_lesson_id lessonId (db self))).
  apply (all_or_none_transfer _ _ _ _ _ _ Hread).
  intros r w _ Hw. apply word_of_row_scan. exact Hw.
Qed.

(** X12: a read never reports a failing statement; it returns less.
    Whatever the engine answers to each [SELECT], when the read from a
    healthy engine returns, [getWordsInLesson] returns a prefix of its
    words, each with a prefix of its tags, and [getAllLessons] a prefix of
    its lessons, each with such words; and a [SELECT] that is not prepared
    gives the empty result, whatever the tables hold. *)
Theorem failed_reads_return_prefixes (e : Engine) (self : t) :
  (forall (lessonId : Z) (found : list Word),
     getWordsInLesson healthy lessonId self = Some found ->
     getWordsInLesson e lessonId self
     = Some (rows_seen (on_words e lessonId)
               (map (fun w =>
                       {| Word_id := Word_id w; kana := kana w; translation := translation w;
                          romaji := romaji w; exampleSentence := exampleSentence w;
                          tags := rows_seen (on_tags e (Word_id w)) (tags w) |})
                    found)))
  /\ (forall stored : list Lesson,
        getAllLessons healthy self = Some stored ->
        getAllLessons e self
        = Some (rows_seen (on_lessons e)
                  (map (fun lesson =>
                          {| Lesson_id := Lesson_id lesson; mainName := mainName lesson;
                             subName := subName lesson;
                             words :=
                               rows_seen (on_words e (Lesson_id lesson))
                                 (map (fun w =>
                                         {| Word_id := Word_id w; kana := kana w;
                                            translation := translation w;
                                            romaji := romaji w;
                                            exampleSentence := exampleSentence w;
                                            tags := rows_seen (on_tags e (Word_id w))
                                                      (tags w) |})
                                      (words lesson)) |})
                       stored)))
  /\ (forall lessonId : Z,
        on_words e lessonId = ScanPrepareFails -> getWordsInLesson e lessonId self = Some [])
  /\ (on_lessons e = ScanPrepareFails -> getAllLessons e self = Some []).
Proof.
  split; [| split; [| split]].
  - intros lessonId found. apply getWordsInLesson_scan.
  - intros stored Hread. unfold getAllLessons in *. cbn [healthy on_lessons rows_seen] in Hread.
    apply all_or_none_rows_seen.
    rewrite <- (map_id (lessons (db self))).
    apply (all_or_none_transfer _ _ _ _ _ _ Hread).
    intros r lesson _ Hlesson. unfold lesson_of_row in *.
    destruct (getWordsInLesson healthy (static_cast_int (lessons_id r)) self)
      as [found|] eqn:Hfound; [| discriminate].
    injection Hlesson as <-. cbn [Lesson_id mainName subName words].
    rewrite (getWordsInLesson_scan e self _ found Hfound). reflexivity.
  - intros lessonId Hscan. unfold getWordsInLesson. rewrite Hscan. reflexivity.
  - intros Hscan. unfold getAllLessons. rewrite Hscan. reflexivity.
Qed.

(** The populated store read through an engine that stops the scan of
    [words] after one row and is refused the tags of word 1; and the
    store with a NULL romaji read through an engine that is refused the
    words. *)
Lemma failed_reads_return_prefixes_witness :
  let e := {| on_lessons := ScanDone;
              on_words := fun _ => ScanStops 1;
              on_tags := fun _ => ScanPrepareFails |} in
  let refused := {| on_lessons := ScanDone;
                    on_words := fun _ => ScanPrepareFails;
                    on_tags := fun _ => ScanDone |} in
  getAllLessons healthy LessonManagerTest.populated = Some LessonManagerTest.stored
  /\ getAllLessons e LessonManagerTest.populated
     = Some [ {| Lesson_id := 1; mainName := "Main Name"; subName := "Sub Name";
                 words := [ {| Word_id := 1; kana := "as"; translation := "translation1";
                               romaji := "romaji1"; exampleSentence := "example1";
                               tags := [] |} ] |} ]
  /\ on_words refused 1 = ScanPrepareFails
  /\ getWordsInLesson healthy 1 LessonManagerTest.populated_with_null = None
  /\ getWordsInLesson refused 1 LessonManagerTest.populated_with_null = Some [].
Proof.
  cbn zeta. split; [reflexivity |].
  split.
  - exact (proj1 (proj2 (failed_reads_return_prefixes
                           {| on_lessons := ScanDone;
                              on_words := fun _ => ScanStops 1;
                              on_tags := fun _ => ScanPrepareFails |}
                           LessonManagerTest.populated))
             LessonManagerTest.stored eq_refl).
  - split; [reflexivity | split; [reflexivity |]].
    exact (proj1 (proj2 (proj2 (failed_reads_return_prefixes
                                  {| on_lessons := ScanDone;
                                     on_words := fun _ => ScanPrepareFails;
                                     on_tags := fun _ => ScanDone |}
                                  LessonManagerTest.populated_with_null)))
             1 eq_refl).
Defined.

Lemma filter_commute {R : Type} (p q : R -> bool) (rows : list R) :
  filter p (filter q rows) = filter q (filter p rows).
Proof.
  induction rows as [|r rows IH]; cbn [filter]; [reflexivity |].
  destruct (p r) eqn:Hp, (q r) eqn:Hq; cbn [filter]; rewrite ?Hp, ?Hq, IH; reflexivity.
Qed.

(** X19: in a store whose word ids fit an [int], when [getWordsInLesson]
    returns for a lesson id, after a [deleteWord] whose statement runs it
    returns the words it returned before without those of that id, the
    others with their tags as before. *)
Theorem deleteWord_then_read (wordId lessonId : Z) (self : t)
    (Hfit : Forall (fun row => fits_int (words_id row)) (words_table (db self))) :
  forall before : list Word,
    getWordsInLesson healthy lessonId self = Some before ->
    getWordsInLesson healthy lessonId (deleteWord Done wordId self)
    = Some (filter (fun w => negb (Word_id w =? wordId)) before).
Proof.
  intros before Hread. rewrite getWordsInLesson_healthy in *.
  change (words_table (db (deleteWord Done wordId self)))
    with (filter (fun r => negb (words_id r =? wordId)) (words_table (db self))).
  rewrite filter_commute.
  rewrite (all_or_none_ext_in (word_of_row healthy (deleteWord Done wordId self))
             (word_of_row healthy self))
    by (intros row _; apply word_of_row_tables; reflexivity).
  apply all_or_none_filter; [exact Hread |].
  intros row w Hrow Hw. apply filter_In in Hrow.
  rewrite (word_of_row_id _ _ _ _ Hw).
  rewrite Forall_forall in Hfit.
  rewrite static_cast_int_small; [reflexivity |]. apply Hfit. tauto.
Qed.

(** The first word of the populated store is deleted: the second is what
    is left of the lesson. *)
Lemma deleteWord_then_read_witness :
  let self := LessonManagerTest.populated in
  Forall (fun row => fits_int (words_id row)) (words_table (db self))
  /\ getWordsInLesson healthy 1 self = Some (words LessonManagerTest.stored_lesson)
  /\ option_map (map Word_id) (getWordsInLesson healthy 1 (deleteWord Done 1 self))
     = Some [2].
Proof.
  cbn zeta.
  assert (H : Forall (fun row => fits_int (words_id row))
                (words_table (db LessonManagerTest.populated)))
    by (repeat constructor; cbn; discriminate).
  split; [exact H | split; [reflexivity |]].
  rewrite (deleteWord_then_read 1 1 LessonManagerTest.populated H
             (words LessonManagerTest.stored_lesson) eq_refl).
  reflexivity.
Defined.

(** X20: in a store whose word ids fit an [int], when [getWordsInLesson]
    returns for a lesson id, after an [updateWord] whose statement runs it
    returns the words it returned before, those of id [wordId] with the
    four texts of [updatedWord] up to their first NUL; every word keeps
    its id and its tags, and the id and the tags of [updatedWord] play no
    part. *)
Theorem updateWord_then_read (wordId lessonId : Z) (updatedWord : Word) (self : t)
    (Hfit : Forall (fun row => fits_int (words_id row)) (words_table (db self))) :
  (forall before : list Word,
     getWordsInLesson healthy lessonId self = Some before ->
     getWordsInLesson healthy lessonId (updateWord Done wordId updatedWord self)
     = Some (map (fun w =>
                    if Word_id w =? wordId
                    then {| Word_id := Word_id w;
                            kana := c_str (kana updatedWord);
                            translation := c_str (translation updatedWord);
                            romaji := c_str (romaji updatedWord);
                            exampleSentence := c_str (exampleSentence updatedWord);
                            tags := tags w |}
                    else w)
                 before))
  /\ forall other : Word,
       kana other = kana updatedWord ->
       translation other = translation updatedWord ->
       romaji other = romaji updatedWord ->
       exampleSentence other = exampleSentence updatedWord ->
       db (updateWord Done wordId other self) = db (updateWord Done wordId updatedWord self).
Proof.
  split.
  - intros before Hread. rewrite getWordsInLesson_healthy in *.
    set (U := fun r => if words_id r =? wordId
                       then mk_words_row (words_id r) (words_lesson_id r)
                              (c_str (kana updatedWord)) (c_str (translation updatedWord))
                              (Some (c_str (romaji updatedWord)))
                              (Some (c_str (exampleSentence updatedWord)))
                       else r).
    change (words_table (db (updateWord Done wordId updatedWord self)))
      with (map U (words_table (db self))).
    rewrite filter_map_swap.
    replace (filter (fun r => words_lesson_id (U r) =? lessonId) (words_table (db self)))
      with (filter (fun r => words_lesson_id r =? lessonId) (words_table (db self))).
    + apply (all_or_none_transfer _ _ _ _ _ _ Hread).
      intros row w Hrow Hw. apply filter_In in Hrow.
      rewrite Forall_forall in Hfit.
      assert (Hcast : static_cast_int (words_id row) = words_id row)
        by (apply static_cast_int_small, Hfit; tauto).
      rewrite (word_of_row_tables healthy (updateWord Done wordId updatedWord self) self)
        by reflexivity.
      revert Hw. unfold word_of_row. subst U. cbn beta.
      destruct (words_romaji row) as [ro|] eqn:Hro; [| discriminate].
      destruct (words_example_sentence row) as [ex|] eqn:Hex; [| discriminate].
      intros Hw. injection Hw as <-. cbn [Word_id tags]. rewrite Hcast.
      destruct (words_id row =? wordId);
        cbn [words_id words_kana words_translation words_romaji words_example_sentence];
        rewrite ?Hro, ?Hex, ?c_str_idempotent, ?Hcast; reflexivity.
    + apply filter_ext. intros row. subst U. cbn beta.
      destruct (words_id row =? wordId); reflexivity.
  - intros other Hk Ht Hr He. cbn -[c_str]. unfold UPDATE_words.
    rewrite Hk, Ht, Hr, He. reflexivity.
Qed.

(** The second test word written over the first: the tag of the first
    stays. *)
Lemma updateWord_then_read_witness :
  let self := LessonManagerTest.populated in
  Forall (fun row => fits_int (words_id row)) (words_table (db self))
  /\ getWordsInLesson healthy 1 self = Some (words LessonManagerTest.stored_lesson)
  /\ option_map (map (fun w => (kana w, tags w)))
       (getWordsInLesson healthy 1 (updateWord Done 1 LessonManagerTest.word2 self))
     = Some [("qwe"%string, ["tag1"%string]); ("qwe"%string, ["tag2"%string])].
Proof.
  cbn zeta.
  assert (H : Forall (fun row => fits_int (words_id row))
                (words_table (db LessonManagerTest.populated)))
    by (repeat constructor; cbn; discriminate).
  split; [exact H | split; [reflexivity |]].
  rewrite (proj1 (updateWord_then_read 1 1 LessonManagerTest.word2
                    LessonManagerTest.populated H)
             (words LessonManagerTest.stored_lesson) eq_refl).
  reflexivity.
Defined.

(** A NULL romaji in word 1: the reads of lesson 1 have no result until
    the row is overwritten or deleted, or the lesson is deleted. *)
Example null_romaji_overwritten :
  getWordsInLesson healthy 1 LessonManagerTest.populated_with_null = None
  /\ getAllLessons healthy
       (updateWord Done 1 LessonManagerTest.word1 LessonManagerTest.populated_with_null)
     = Some LessonManagerTest.stored
  /\ option_map (map Word_id)
       (getWordsInLesson healthy 1 (deleteWord Done 1 LessonManagerTest.populated_with_null))
     = Some [2]
  /\ getAllLessons healthy (deleteLesson Done 1 LessonManagerTest.populated_with_null)
     = Some [].
Proof. repeat split; reflexivity. Qed.

(** *** Stores written through this class only *)

Lemma texts_present_returns (e : Engine) (self : t) (rows : list words_row) :
  Forall (fun r => words_romaji r <> None /\ words_example_sentence r <> None) rows ->
  exists found, all_or_none (word_of_row e self) rows = Some found.
Proof.
  intros Hrows.
  destruct (all_or_none (word_of_row e self) rows) as [found|] eqn:Hread;
    [exists found; reflexivity |].
  apply all_or_none_None, Exists_exists in Hread. destruct Hread as [r [Hr Hnone]].
  rewrite Forall_forall in Hrows. destruct (Hrows r Hr) as [Hromaji Hexample].
  unfold word_of_row in Hnone.
  destruct (words_romaji r); [| contradiction].
  destruct (words_example_sentence r); [discriminate | contradiction].
Qed.

Lemma getWordsInLesson_returns (e : Engine) (lessonId : Z) (self : t) :
  texts_present (db self) -> exists found, getWordsInLesson e lessonId self = Some found.
Proof.
  intros Hpresent. unfold getWordsInLesson. apply texts_present_returns.
  apply Forall_forall. intros r Hr. apply rows_seen_In in Hr.
  unfold SELECT_words_WHERE_lesson_id in Hr. apply filter_In in Hr.
  unfold texts_present in Hpresent. rewrite Forall_forall in Hpresent.
  apply Hpresent. tauto.
Qed.

Lemma getAllLessons_returns (e : Engine) (self : t) :
  texts_present (db self) -> exists stored, getAllLessons e self = Some stored.
Proof.
  intros Hpresent. unfold getAllLessons.
  destruct (all_or_none (lesson_of_row e self) (rows_seen (on_lessons e) (lessons (db self))))
    as [stored|] eqn:Hread; [exists stored; reflexivity |].
  apply all_or_none_None, Exists_exists in Hread. destruct Hread as [r [_ Hnone]].
  unfold lesson_of_row in Hnone.
  destruct (getWordsInLesson_returns e (static_cast_int (lessons_id r)) self Hpresent)
    as [found Hfound].
  rewrite Hfound in Hnone. discriminate.
Qed.

Lemma perform_texts_present (op : Operation) (self : t) :
  texts_present (db self) -> texts_present (db (perform self op)).
Proof.
  intros Hpresent. unfold texts_present in *.
  destruct op as [o m s | o l w | o w g | o l m s | o w u | o l | o w];
    destruct o as [| errmsg |]; try exact Hpresent; cbn [perform].
  - rewrite addWord_words_table. apply Forall_app. split; [exact Hpresent |].
    constructor; [| constructor]. cbn [words_romaji words_example_sentence].
    split; discriminate.
  - change (words_table (db (updateWord Done w u self)))
      with (map (fun r => if words_id r =? w
                          then mk_words_row (words_id r) (words_lesson_id r)
                                 (c_str (kana u)) (c_str (translation u))
                                 (Some (c_str (romaji u))) (Some (c_str (exampleSentence u)))
                          else r)
              (words_table (db self))).
    apply Forall_map. revert Hpresent. apply Forall_impl. intros r Hr.
    destruct (words_id r =? w); [| exact Hr].
    cbn [words_romaji words_example_sentence]. split; discriminate.
  - change (words_table (db (deleteWord Done w self)))
      with (filter (fun r => negb (words_id r =? w)) (words_table (db self))).
    apply Forall_forall. intros r Hr. apply filter_In in Hr.
    rewrite Forall_forall in Hpresent. apply Hpresent. tauto.
Qed.

(** X21: a store written through this class only never holds NULL in a
    word row, and every read of it returns, whatever the engine answers:
    after any sequence of operations on a fresh database, failed ones
    included, no word row lacks its romaji or its example sentence, and
    [getWordsInLesson] and [getAllLessons] have a result. *)
Theorem reads_return_after_own_writes (ops : list Operation) (e : Engine) (lessonId : Z) :
  let self := perform_all ops empty in
  Forall (fun r => words_romaji r <> None /\ words_example_sentence r <> None)
         (words_table (db self))
  /\ (exists found, getWordsInLesson e lessonId self = Some found)
  /\ (exists stored, getAllLessons e self = Some stored).
Proof.
  cbn zeta.
  assert (Hpresent : texts_present (db (perform_all ops empty))).
  { unfold perform_all. induction ops as [|op ops IH] using rev_ind.
    - constructor.
    - rewrite fold_left_app. cbn [fold_left]. apply perform_texts_present. exact IH. }
  split; [exact Hpresent | split].
  - apply getWordsInLesson_returns. exact Hpresent.
  - apply getAllLessons_returns. exact Hpresent.
Qed.

(** The operations that build the populated store, and the read of what
    they wrote. *)
Example populated_by_operations :
  let ops := [OpAddLesson Done "Main Name" "Sub Name";
              OpAddWord Done 1 LessonManagerTest.word1; OpAddTag Done 1 "tag1";
              OpAddWord Done 1 LessonManagerTest.word2; OpAddTag Done 2 "tag2"] in
  perform_all ops empty = LessonManagerTest.populated
  /\ getAllLessons healthy (perform_all ops empty) = Some LessonManagerTest.stored.
Proof. split; reflexivity. Qed.

End LessonsDatabaseMore.

(** ** The quiz widget *)

Module QuizWidgetFacts.
Import QuizWidget.

Section Facts.

Context {G : Type} {game : QuizGame G}.
Variable ticks_per_second : Z.

Lemma option_buttons_app (f : Frame) (a b : list nat) (w : t) :
  option_buttons f (a ++ b) w
  = (fst (option_buttons f a w) ++ fst (option_buttons f b (snd (option_buttons f a w))),
     snd (option_buttons f b (snd (option_buttons f a w)))).
Proof.
  revert w. induction a as [|i a IH]; intros w; cbn [app option_buttons fst snd].
  - destruct (option_buttons f b w); reflexivity.
  - destruct (option_button f i w) as [button w1]. rewrite IH.
    destruct (option_buttons f a w1) as [buttons w2]. cbn [fst snd].
    destruct (option_buttons f b w2); reflexivity.
Qed.

(** While the answer is highlighted the loop changes nothing, and draws
    green the option at [correctAnswerIndex] and no other. *)
Lemma option_buttons_highlighted (f : Frame) (indices : list nat) (w : t) :
  highlightCorrectAnswer w = true ->
  option_buttons f indices w
  = (map (fun i => Button (option_text i w) (Z.of_nat i =? correctAnswerIndex w)) indices, w).
Proof.
  intros Hhigh. induction indices as [|i indices IH]; cbn [option_buttons map]; [reflexivity |].
  unfold option_button. rewrite Hhigh. cbn [andb negb].
  destruct (Z.of_nat i =? correctAnswerIndex w).
  - rewrite IH. reflexivity.
  - destruct (option_pressed f i); rewrite IH; reflexivity.
Qed.

(** Without a highlight and without a press the loop changes nothing and
    draws no option green. *)
Lemma option_buttons_unpressed (f : Frame) (indices : list nat) (w : t) :
  highlightCorrectAnswer w = false ->
  (forall i, In i indices -> option_pressed f i = false) ->
  option_buttons f indices w = (map (fun i => Button (option_text i w) false) indices, w).
Proof.
  intros Hhigh. induction indices as [|i indices IH]; intros Hnone;
    cbn [option_buttons map]; [reflexivity |].
  unfold option_button. rewrite Hhigh. cbn [andb negb].
  rewrite (Hnone i (or_introl eq_refl)).
  rewrite IH; [reflexivity |]. intros j Hj. apply Hnone. right. exact Hj.
Qed.

(** The first option pressed is the one selected; the options after it
    are drawn as under a highlight. *)
Lemma option_buttons_first_press (f : Frame) (before after : list nat) (i : nat) (w : t) :
  highlightCorrectAnswer w = false ->
  (forall j, In j before -> option_pressed f j = false) ->
  option_pressed f i = true ->
  option_buttons f (before ++ i :: after) w
  = (map (fun j => Button (option_text j w) false) before
     ++ Button (option_text i w) false
     :: map (fun j => Button (option_text j w)
                        (Z.of_nat j =? getCorrectAnswerIndex (quizGame w))) after,
     highlightAndAdvance f (with_selectedOption (quiz.optionLabel i) w)).
Proof.
  intros Hhigh Hnone Hpress.
  rewrite option_buttons_app, (option_buttons_unpressed f before w Hhigh Hnone).
  cbn [fst snd option_buttons]. unfold option_button at 1 2.
  rewrite Hhigh, Hpress. cbn [andb negb fst snd].
  rewrite option_buttons_highlighted by reflexivity. reflexivity.
Qed.

(** The loop never touches the engine, the buffers or the window flag. *)
Lemma option_buttons_keep (f : Frame) (indices : list nat) (w : t) :
  let w' := snd (option_buttons f indices w) in
  quizGame w' = quizGame w
  /\ bufferedQuestion w' = bufferedQuestion w
  /\ bufferedOptions w' = bufferedOptions w
  /\ isQuizWindowOpen w' = isQuizWindowOpen w.
Proof.
  revert w. induction indices as [|i indices IH]; intros w; cbn [option_buttons].
  - cbn. auto.
  - destruct (option_button f i w) as [button w1] eqn:Hbutton.
    specialize (IH w1). destruct (option_buttons f indices w1) as [buttons w2].
    cbn [snd] in *.
    assert (Hw1 : quizGame w1 = quizGame w /\ bufferedQuestion w1 = bufferedQuestion w
                  /\ bufferedOptions w1 = bufferedOptions w
                  /\ isQuizWindowOpen w1 = isQuizWindowOpen w).
    { unfold option_button in Hbutton.
      destruct (highlightCorrectAnswer w && (Z.of_nat i =? correctAnswerIndex w));
        [inversion Hbutton; subst; auto |].
      destruct (option_pressed f i); [| inversion Hbutton; subst; auto].
      destruct (negb (highlightCorrectAnswer w)); inversion Hbutton; subst; cbn; auto. }
    destruct IH as [H1 [H2 [H3 H4]]]. destruct Hw1 as [K1 [K2 [K3 K4]]].
    rewrite H1, H2, H3, H4. auto.
Qed.

Lemma seq_split_at (i n : nat) :
  (i < n)%nat -> seq 0 n = seq 0 i ++ i :: seq (S i) (n - S i).
Proof.
  intros Hi. replace n with (i + S (n - S i))%nat at 1 by lia.
  rewrite seq_app. reflexivity.
Qed.

Lemma close_after_open (b c : bool) (w : @t G) :
  (if c then with_isQuizWindowOpen false (with_isQuizWindowOpen b w)
   else with_isQuizWindowOpen b w)
  = with_isQuizWindowOpen (b && negb c) w.
Proof.
  destruct c, b; reflexivity.
Qed.

(** A frame drawn while the answer is highlighted and the quiz is not
    finished. *)
Lemma draw_while_highlighted (f : Frame) (w : t) :
  isQuizWindowOpen w = true ->
  highlightCorrectAnswer w = true ->
  isFinished (quizGame w) = false ->
  window_visible f = true ->
  let w1 := end_highlight ticks_per_second f (with_isQuizWindowOpen (window_open f) w) in
  draw ticks_per_second f w
  = ([TextWrapped welcome; Separator; Text (bufferedQuestion w); Spacing]
     ++ map (fun i => Button (option_text i w) (Z.of_nat i =? correctAnswerIndex w))
            (seq 0 (List.length (bufferedOptions w)))
     ++ [Text (progress w1); Button "Close" false],
     if close_pressed f then with_isQuizWindowOpen false w1 else w1).
Proof.
  intros Hopen Hhigh Hfin Hvisible. cbn zeta. unfold draw.
  rewrite Hopen, Hvisible.
  set (w0 := with_isQuizWindowOpen (window_open f) w).
  change (highlightCorrectAnswer w0) with (highlightCorrectAnswer w).
  rewrite Hhigh. cbn [negb].
  change (quizGame w0) with (quizGame w). rewrite Hfin. cbn [negb].
  rewrite option_buttons_highlighted by exact Hhigh.
  cbn [app]. rewrite <- !app_assoc. reflexivity.
Qed.

Lemma end_highlight_waiting (f : Frame) (w : t) :
  elapsed ticks_per_second f w < 2 -> end_highlight ticks_per_second f w = w.
Proof.
  intros Hwait. unfold end_highlight.
  destruct (highlightCorrectAnswer w); [| reflexivity].
  destruct (Z.leb_spec 2 (elapsed ticks_per_second f w)); [lia | reflexivity].
Qed.

Lemma end_highlight_due (f : Frame) (w : t) :
  highlightCorrectAnswer w = true ->
  2 <= elapsed ticks_per_second f w ->
  end_highlight ticks_per_second f w
  = let g' := advance (selectedOption w) (quizGame w) in
    {| quizGame := g';
       bufferedQuestion := if isFinished g' then bufferedQuestion w else getCurrentQuestion g';
       bufferedOptions := if isFinished g' then bufferedOptions w else getCurrentOptions g';
       highlightCorrectAnswer := false;
       highlightStartTime := highlightStartTime w;
       correctAnswerIndex := correctAnswerIndex w;
       isQuizWindowOpen := isQuizWindowOpen w;
       selectedOption := zero |}.
Proof.
  intros Hhigh Hdue. unfold end_highlight. rewrite Hhigh.
  destruct (Z.leb_spec 2 (elapsed ticks_per_second f w)); [| lia].
  cbn. destruct (isFinished (advance (selectedOption w) (quizGame w))); reflexivity.
Qed.

(** A frame in which an option is pressed while nothing is highlighted
    and the quiz is not finished. *)
Lemma draw_press (f : Frame) (i : nat) (w : t) :
  isQuizWindowOpen w = true ->
  highlightCorrectAnswer w = false ->
  isFinished (quizGame w) = false ->
  window_visible f = true ->
  (i < List.length (getCurrentOptions (quizGame w)))%nat ->
  option_pressed f i = true ->
  (forall j, (j < i)%nat -> option_pressed f j = false) ->
  let w0 := refresh (with_isQuizWindowOpen (window_open f) w) in
  let w1 := end_highlight ticks_per_second f
              (highlightAndAdvance f (with_selectedOption (quiz.optionLabel i) w0)) in
  draw ticks_per_second f w
  = ([TextWrapped welcome; Separator; Text (getCurrentQuestion (quizGame w)); Spacing]
     ++ map (fun j => Button (option_text j w0)
                        ((i <? j)%nat && (Z.of_nat j =? getCorrectAnswerIndex (quizGame w))))
            (seq 0 (List.length (getCurrentOptions (quizGame w))))
     ++ [Text (progress w1); Button "Close" false],
     if close_pressed f then with_isQuizWindowOpen false w1 else w1).
Proof.
  intros Hopen Hhigh Hfin Hvisible Hi Hpress Hfirst. cbn zeta. unfold draw.
  rewrite Hopen, Hvisible.
  change (highlightCorrectAnswer (with_isQuizWindowOpen (window_open f) w))
    with (highlightCorrectAnswer w).
  rewrite Hhigh. cbn [negb].
  set (w0 := refresh _).
  change (quizGame w0) with (quizGame w). rewrite Hfin. cbn [negb].
  change (bufferedOptions w0) with (getCurrentOptions (quizGame w)).
  change (bufferedQuestion w0) with (getCurrentQuestion (quizGame w)).
  rewrite (seq_split_at i _ Hi).
  assert (Hbuttons :
    map (fun j => Button (option_text j w0)
                    ((i <? j)%nat && (Z.of_nat j =? getCorrectAnswerIndex (quizGame w))))
        (seq 0 i ++ i :: seq (S i) (List.length (getCurrentOptions (quizGame w)) - S i))
    = map (fun j => Button (option_text j w0) false) (seq 0 i)
      ++ Button (option_text i w0) false
      :: map (fun j => Button (option_text j w0)
                         (Z.of_nat j =? getCorrectAnswerIndex (quizGame w0)))
             (seq (S i) (List.length (getCurrentOptions (quizGame w)) - S i))).
  { rewrite map_app. cbn [map]. rewrite Nat.ltb_irrefl. cbn [andb].
    apply (f_equal2 (@app Drawn)); [| apply f_equal].
    - apply map_ext_in. intros j Hj. apply in_seq in Hj.
      destruct (Nat.ltb_spec i j); [lia | reflexivity].
    - apply map_ext_in. intros j Hj. apply in_seq in Hj.
      destruct (Nat.ltb_spec i j); [reflexivity | lia]. }
  rewrite Hbuttons.
  rewrite (option_buttons_first_press f (seq 0 i) _ i w0).
  - cbn [app]. rewrite <- !app_assoc. reflexivity.
  - exact Hhigh.
  - intros j Hj. apply in_seq in Hj. apply Hfirst. lia.
  - exact Hpress.
Qed.

(** X13: while the answer is highlighted, the quiz is not finished and
    fewer than two whole seconds have passed, a frame changes nothing but
    the window flag, whatever is pressed: engine, buffers, selected option,
    correct index and start time stay; and the options are drawn with the
    one at [correctAnswerIndex] green and no other. *)
Theorem highlight_freezes_the_widget (f : Frame) (w : t)
    (Hopen : isQuizWindowOpen w = true)
    (Hhigh : highlightCorrectAnswer w = true)
    (Hfin : isFinished (quizGame w) = false)
    (Hvisible : window_visible f = true)
    (Hwait : elapsed ticks_per_second f w < 2) :
  draw ticks_per_second f w
  = ([TextWrapped welcome; Separator; Text (bufferedQuestion w); Spacing]
     ++ map (fun i => Button (option_text i w) (Z.of_nat i =? correctAnswerIndex w))
            (seq 0 (List.length (bufferedOptions w)))
     ++ [Text (progress w); Button "Close" false],
     with_isQuizWindowOpen (window_open f && negb (close_pressed f)) w).
Proof.
  rewrite (draw_while_highlighted f w Hopen Hhigh Hfin Hvisible). cbn zeta.
  rewrite end_highlight_waiting by exact Hwait.
  rewrite close_after_open. reflexivity.
Qed.

(** X14: when nothing is highlighted and the quiz is not finished, the
    first option pressed in a frame is the one selected: its label is
    kept, the highlight starts at the time of the press with the engine's
    correct index, the buffers hold the engine's current question and
    options, and the engine is not touched; options pressed after it in
    the same frame count for nothing, and the correct option is drawn
    green at once if it comes after the pressed one. *)
Theorem first_pressed_option_is_selected (f : Frame) (i : nat) (w : t)
    (Hopen : isQuizWindowOpen w = true)
    (Hhigh : highlightCorrectAnswer w = false)
    (Hfin : isFinished (quizGame w) = false)
    (Hvisible : window_visible f = true)
    (Hi : (i < List.length (getCurrentOptions (quizGame w)))%nat)
    (Hpress : option_pressed f i = true)
    (Hfirst : forall j, (j < i)%nat -> option_pressed f j = false)
    (Hwait : Z.quot (now_at_check f - now_at_press f) ticks_per_second < 2) :
  snd (draw ticks_per_second f w)
  = {| quizGame := quizGame w;
       bufferedQuestion := getCurrentQuestion (quizGame w);
       bufferedOptions := getCurrentOptions (quizGame w);
       highlightCorrectAnswer := true;
       highlightStartTime := now_at_press f;
       correctAnswerIndex := getCorrectAnswerIndex (quizGame w);
       isQuizWindowOpen := window_open f && negb (close_pressed f);
       selectedOption := quiz.optionLabel i |}
  /\ fst (draw ticks_per_second f w)
     = [TextWrapped welcome; Separator; Text (getCurrentQuestion (quizGame w)); Spacing]
       ++ map (fun j =>
                 Button (String (quiz.optionLabel j) ") "
                         +++ nth j (getCurrentOptions (quizGame w)) EmptyString)
                        ((i <? j)%nat && (Z.of_nat j =? getCorrectAnswerIndex (quizGame w))))
              (seq 0 (List.length (getCurrentOptions (quizGame w))))
       ++ [Text (progress w); Button "Close" false].
Proof.
  rewrite (draw_press f i w Hopen Hhigh Hfin Hvisible Hi Hpress Hfirst). cbn zeta.
  rewrite end_highlight_waiting by exact Hwait. cbn [fst snd]. split.
  - destruct (close_pressed f), (window_open f); reflexivity.
  - reflexivity.
Qed.

(** X15: once two whole seconds have passed since the highlight started,
    the next frame shown ends it: the engine is advanced exactly once,
    with the selected label; the selection is cleared; the buffers are
    refilled unless the engine is then finished.  The options drawn in
    that frame are still those of the answered question, while the
    progress line is already the advanced engine's. *)
Theorem two_seconds_end_the_highlight (f : Frame) (w : t)
    (Hopen : isQuizWindowOpen w = true)
    (Hhigh : highlightCorrectAnswer w = true)
    (Hfin : isFinished (quizGame w) = false)
    (Hvisible : window_visible f = true)
    (Hdue : 2 <= elapsed ticks_per_second f w) :
  let g' := advance (selectedOption w) (quizGame w) in
  draw ticks_per_second f w
  = ([TextWrapped welcome; Separator; Text (bufferedQuestion w); Spacing]
     ++ map (fun i => Button (option_text i w) (Z.of_nat i =? correctAnswerIndex w))
            (seq 0 (List.length (bufferedOptions w)))
     ++ [Text ("Progress: " +++ to_string (getCurrentQuestionIndex g' + 1)
               +++ "/" +++ to_string (getTotalQuestions g'));
         Button "Close" false],
     {| quizGame := g';
        bufferedQuestion := if isFinished g' then bufferedQuestion w else getCurrentQuestion g';
        bufferedOptions := if isFinished g' then bufferedOptions w else getCurrentOptions g';
        highlightCorrectAnswer := false;
        highlightStartTime := highlightStartTime w;
        correctAnswerIndex := correctAnswerIndex w;
        isQuizWindowOpen := window_open f && negb (close_pressed f);
        selectedOption := zero |}).
Proof.
  rewrite (draw_while_highlighted f w Hopen Hhigh Hfin Hvisible). cbn zeta.
  rewrite end_highlight_due by assumption. cbn zeta.
  destruct (close_pressed f), (window_open f); reflexivity.
Qed.

(** The widget after a frame, without what was drawn. *)
Lemma draw_state (f : Frame) (w : t) :
  snd (draw ticks_per_second f w)
  = if isQuizWindowOpen w then
      let w0 := with_isQuizWindowOpen (window_open f) w in
      if window_visible f then
        let w1 := if negb (highlightCorrectAnswer w0) then refresh w0 else w0 in
        let w2 :=
          if negb (isFinished (quizGame w1))
          then end_highlight ticks_per_second f
                 (snd (option_buttons f (seq 0 (List.length (bufferedOptions w1))) w1))
          else if restart_pressed f then refresh (with_quizGame (start (quizGame w1)) w1)
               else w1 in
        if close_pressed f then with_isQuizWindowOpen false w2 else w2
      else w0
    else w.
Proof.
  unfold draw. destruct (isQuizWindowOpen w); [| reflexivity].
  destruct (window_visible f); [| reflexivity]. cbn zeta.
  set (w0 := with_isQuizWindowOpen (window_open f) w).
  set (w1 := if negb (highlightCorrectAnswer w0) then refresh w0 else w0).
  destruct (negb (isFinished (quizGame w1))); [| reflexivity].
  destruct (option_buttons f _ w1) as [buttons w2]. reflexivity.
Qed.

Lemma end_highlight_game (f : Frame) (w : t) :
  quizGame (end_highlight ticks_per_second f w) = quizGame w
  \/ quizGame (end_highlight ticks_per_second f w) = advance (selectedOption w) (quizGame w).
Proof.
  unfold end_highlight. destruct (highlightCorrectAnswer w); [| left; reflexivity].
  destruct (2 <=? elapsed ticks_per_second f w); [| left; reflexivity].
  right. cbn zeta.
  destruct (negb (isFinished (quizGame (with_quizGame _ _)))); reflexivity.
Qed.

(** X16: an option pressed, the frames drawn while fewer than two whole
    seconds have passed since the press, and the first frame drawn after
    that: together they advance the engine exactly once, with the label
    of the option pressed first; whatever was pressed in the frames in
    between has no effect. *)
Theorem press_then_wait_advances_once (f1 : Frame) (waiting : list Frame) (f2 : Frame)
    (i : nat) (w : t)
    (Hopen : isQuizWindowOpen w = true)
    (Hhigh : highlightCorrectAnswer w = false)
    (Hfin : isFinished (quizGame w) = false)
    (Hshown1 : stays_shown f1)
    (Hi : (i < List.length (getCurrentOptions (quizGame w)))%nat)
    (Hpress : option_pressed f1 i = true)
    (Hfirst : forall j, (j < i)%nat -> option_pressed f1 j = false)
    (Hwait1 : Z.quot (now_at_check f1 - now_at_press f1) ticks_per_second < 2)
    (Hwaiting : Forall (fun f => stays_shown f
                                 /\ Z.quot (now_at_check f - now_at_press f1) ticks_per_second < 2)
                       waiting)
    (Hshown2 : stays_shown f2)
    (Hdue : 2 <= Z.quot (now_at_check f2 - now_at_press f1) ticks_per_second) :
  let g' := advance (quiz.optionLabel i) (quizGame w) in
  draw_all ticks_per_second (f1 :: waiting ++ [f2]) w
  = {| quizGame := g';
       bufferedQuestion :=
         if isFinished g' then getCurrentQuestion (quizGame w) else getCurrentQuestion g';
       bufferedOptions :=
         if isFinished g' then getCurrentOptions (quizGame w) else getCurrentOptions g';
       highlightCorrectAnswer := false;
       highlightStartTime := now_at_press f1;
       correctAnswerIndex := getCorrectAnswerIndex (quizGame w);
       isQuizWindowOpen := true;
       selectedOption := zero |}.
Proof.
  cbn zeta. unfold draw_all. cbn [fold_left].
  destruct Hshown1 as [Hopen1 [Hvisible1 Hclose1]].
  rewrite (draw_press f1 i w Hopen Hhigh Hfin Hvisible1 Hi Hpress Hfirst). cbn zeta.
  rewrite end_highlight_waiting by exact Hwait1. cbn [snd].
  rewrite Hclose1, Hopen1.
  set (w1 := highlightAndAdvance f1 _).
  assert (Hopenw : isQuizWindowOpen w1 = true) by reflexivity.
  assert (Hhighw : highlightCorrectAnswer w1 = true) by reflexivity.
  assert (Hfinw : isFinished (quizGame w1) = false) by exact Hfin.
  assert (Hkept : fold_left (fun w f => snd (draw ticks_per_second f w)) waiting w1 = w1).
  { induction Hwaiting as [|f fs [[Ho [Hv Hc]] Hw] _ IH]; cbn [fold_left]; [reflexivity |].
    rewrite (draw_while_highlighted f w1 Hopenw Hhighw Hfinw Hv). cbn zeta.
    rewrite end_highlight_waiting by exact Hw. cbn [snd]. rewrite Hc, Ho. exact IH. }
  rewrite fold_left_app, Hkept. cbn [fold_left].
  destruct Hshown2 as [Hopen2 [Hvisible2 Hclose2]].
  rewrite (draw_while_highlighted f2 w1 Hopenw Hhighw Hfinw Hvisible2). cbn zeta.
  rewrite end_highlight_due by assumption. cbn [snd]. rewrite Hclose2, Hopen2.
  reflexivity.
Qed.

(** X17: one frame commands the engine at most once.  After [draw] the
    engine is as before, or it is advanced once (only when the quiz was
    not finished), or it is started anew (only when the quiz was finished
    and "Restart" was pressed); and it is as before whenever the window is
    closed or not shown. *)
Theorem draw_commands_the_engine_at_most_once (f : Frame) (w : t) :
  let g := quizGame w in
  let g' := quizGame (snd (draw ticks_per_second f w)) in
  (g' = g
   \/ (isFinished g = false /\ exists label, g' = advance label g)
   \/ (isFinished g = true /\ restart_pressed f = true /\ g' = start g))
  /\ (isQuizWindowOpen w = false \/ window_visible f = false -> g' = g).
Proof.
  cbn zeta. rewrite draw_state.
  destruct (isQuizWindowOpen w); [| split; [left |]; reflexivity].
  cbn zeta. destruct (window_visible f);
    [| split; [left; reflexivity | intros _; reflexivity]].
  split; [| intros [H | H]; discriminate H].
  set (w0 := with_isQuizWindowOpen (window_open f) w).
  set (w1 := if negb (highlightCorrectAnswer w0) then refresh w0 else w0).
  assert (Hw1 : quizGame w1 = quizGame w)
    by (subst w1; destruct (negb (highlightCorrectAnswer w0)); reflexivity).
  assert (Hclose : forall w2 : @t G,
             quizGame (if close_pressed f then with_isQuizWindowOpen false w2 else w2)
             = quizGame w2) by (intros w2; destruct (close_pressed f); reflexivity).
  rewrite Hclose. clearbody w1. clear w0. rewrite Hw1.
  destruct (isFinished (quizGame w)) eqn:Hfin; cbn [negb].
  - destruct (restart_pressed f).
    + right. right. cbn. auto.
    + left. exact Hw1.
  - set (loop := option_buttons f _ w1).
    destruct (option_buttons_keep f (seq 0 (List.length (bufferedOptions w1))) w1)
      as [Hgame _]. fold loop in Hgame.
    destruct (end_highlight_game f (snd loop)) as [Hsame | Hadvanced].
    + left. rewrite Hsame, Hgame. exact Hw1.
    + right. left. split; [reflexivity |].
      exists (selectedOption (snd loop)). rewrite Hadvanced, Hgame, Hw1. reflexivity.
Qed.

End Facts.

(** The widget over the test lesson, with a clock of nanoseconds: option
    "a" is pressed at 5 ns. *)
Lemma first_pressed_option_is_selected_witness :
  let f := test_frame [0; 1]%nat 5 in
  isQuizWindowOpen test_widget = true
  /\ highlightCorrectAnswer test_widget = false
  /\ isFinished (quizGame test_widget) = false
  /\ window_visible f = true
  /\ (0 < List.length (getCurrentOptions (quizGame test_widget)))%nat
  /\ option_pressed f 0 = true
  /\ (forall j, (j < 0)%nat -> option_pressed f j = false)
  /\ Z.quot (now_at_check f - now_at_press f) 1000000000 < 2
  /\ selectedOption (snd (draw 1000000000 f test_widget)) = "a"%char.
Proof.
  cbn zeta.
  assert (Hfin : isFinished (quizGame test_widget) = false) by reflexivity.
  assert (Hi : (0 < List.length (getCurrentOptions (quizGame test_widget)))%nat)
    by (vm_compute; lia).
  assert (Hfirst : forall j, (j < 0)%nat -> option_pressed (test_frame [0; 1]%nat 5) j = false)
    by (intros j Hj; lia).
  assert (Hwait : Z.quot (now_at_check (test_frame [0; 1]%nat 5)
                          - now_at_press (test_frame [0; 1]%nat 5)) 1000000000 < 2)
    by reflexivity.
  repeat (split; [first [reflexivity | assumption] |]).
  exact (f_equal selectedOption
           (proj1 (first_pressed_option_is_selected 1000000000 (test_frame [0; 1]%nat 5)
                     0%nat test_widget eq_refl eq_refl Hfin eq_refl Hi eq_refl Hfirst Hwait))).
Defined.

(** One second later option "b" is pressed: nothing changes. *)
Lemma highlight_freezes_the_widget_witness :
  let w := snd (draw 1000000000 (test_frame [0]%nat 5) test_widget) in
  let f := test_frame [1]%nat 1000000005 in
  isQuizWindowOpen w = true
  /\ highlightCorrectAnswer w = true
  /\ isFinished (quizGame w) = false
  /\ window_visible f = true
  /\ elapsed 1000000000 f w < 2
  /\ snd (draw 1000000000 f w) = w.
Proof.
  cbn zeta.
  set (w := snd (draw 1000000000 (test_frame [0]%nat 5) test_widget)).
  assert (Hopen : isQuizWindowOpen w = true) by reflexivity.
  assert (Hhigh : highlightCorrectAnswer w = true) by reflexivity.
  assert (Hfin : isFinished (quizGame w) = false) by reflexivity.
  assert (Hwait : elapsed 1000000000 (test_frame [1]%nat 1000000005) w < 2) by reflexivity.
  repeat (split; [first [reflexivity | assumption] |]).
  exact (f_equal snd
           (highlight_freezes_the_widget 1000000000 (test_frame [1]%nat 1000000005) w
              Hopen Hhigh Hfin eq_refl Hwait)).
Defined.

(** Two seconds after the press the engine moves to the second card. *)
Lemma two_seconds_end_the_highlight_witness :
  let w := snd (draw 1000000000 (test_frame [0]%nat 5) test_widget) in
  let f := test_frame []%nat 2000000005 in
  isQuizWindowOpen w = true
  /\ highlightCorrectAnswer w = true
  /\ isFinished (quizGame w) = false
  /\ window_visible f = true
  /\ 2 <= elapsed 1000000000 f w
  /\ quiz.cursor (quizGame (snd (draw 1000000000 f w))) = 1%nat.
Proof.
  cbn zeta.
  set (w := snd (draw 1000000000 (test_frame [0]%nat 5) test_widget)).
  assert (Hopen : isQuizWindowOpen w = true) by reflexivity.
  assert (Hhigh : highlightCorrectAnswer w = true) by reflexivity.
  assert (Hfin : isFinished (quizGame w) = false) by reflexivity.
  assert (Hdue : 2 <= elapsed 1000000000 (test_frame []%nat 2000000005) w)
    by (vm_compute; discriminate).
  repeat (split; [first [reflexivity | assumption] |]).
  exact (f_equal (fun r => quiz.cursor (quizGame (snd r)))
           (two_seconds_end_the_highlight 1000000000 (test_frame []%nat 2000000005) w
              Hopen Hhigh Hfin eq_refl Hdue)).
Defined.

(** Option "a" pressed at 5 ns, option "b" pressed a second later, and a
    frame two seconds after the first press: the engine is advanced with
    "a", a wrong answer, and moves to the second card. *)
Lemma press_then_wait_advances_once_witness :
  let f1 := test_frame [0; 1]%nat 5 in
  let waiting := [test_frame [1]%nat 1000000005] in
  let f2 := test_frame []%nat 2000000005 in
  stays_shown f1
  /\ Forall (fun f => stays_shown f /\ Z.quot (now_at_check f - now_at_press f1) 1000000000 < 2)
            waiting
  /\ stays_shown f2
  /\ 2 <= Z.quot (now_at_check f2 - now_at_press f1) 1000000000
  /\ quizGame (draw_all 1000000000 (f1 :: waiting ++ [f2]) test_widget)
     = advance "a"%char (quizGame test_widget).
Proof.
  cbn zeta.
  set (f1 := test_frame [0; 1]%nat 5).
  set (f2 := test_frame []%nat 2000000005).
  assert (Hshown : forall pressed now, stays_shown (test_frame pressed now))
    by (intros; repeat split).
  assert (Hfin : isFinished (quizGame test_widget) = false) by reflexivity.
  assert (Hi : (0 < List.length (getCurrentOptions (quizGame test_widget)))%nat)
    by (vm_compute; lia).
  assert (Hfirst : forall j, (j < 0)%nat -> option_pressed f1 j = false)
    by (intros j Hj; lia).
  assert (Hwait1 : Z.quot (now_at_check f1 - now_at_press f1) 1000000000 < 2) by reflexivity.
  assert (Hwaiting : Forall (fun f => stays_shown f
                                      /\ Z.quot (now_at_check f - now_at_press f1) 1000000000 < 2)
                       [test_frame [1]%nat 1000000005])
    by (repeat constructor).
  assert (Hdue : 2 <= Z.quot (now_at_check f2 - now_at_press f1) 1000000000)
    by (vm_compute; discriminate).
  split; [apply Hshown | split; [exact Hwaiting | split; [apply Hshown | split; [exact Hdue |]]]].
  exact (f_equal quizGame
           (press_then_wait_advances_once 1000000000 f1 [test_frame [1]%nat 1000000005] f2
              0%nat test_widget eq_refl eq_refl Hfin (Hshown _ _) Hi eq_refl Hfirst Hwait1
              Hwaiting (Hshown _ _) Hdue)).
Defined.

End QuizWidgetFacts.


(** ** Opening the database *)

Module LessonsDatabaseSetupFacts.
Import LessonsDatabaseSetup.

(** X18: what the constructor logs.  If the database cannot be opened:
    one PROBLEM line, and no table is created.  Otherwise the INFO line
    "Opened ..." comes first; [initDatabase] creates the tables in the
    order lessons, words, tags and gives up at the first that fails, so
    that at most one "SQL error while creating" line is logged, for that
    table, followed by "Failed to initialize database."; when all three
    succeed the only other line is "Initialized database successfully.".
    The lines are all INFO exactly when nothing failed, and the rows of
    the file are not touched. *)
Theorem constructor_log (dbPath : string) (x : Setup) (file : sqlite3) (logger : Logger) :
  let self := LessonsDatabase dbPath x file logger in
  let lines :=
    match open_error x with
    | Some errmsg => [("Database: Can't open database: " +++ errmsg, PROBLEM)]
    | None =>
        ("Database: Opened database successfully at " +++ dbPath, INFO)
        :: match first_failure x with
           | Some (table, errMsg) =>
               [("Database: SQL error while creating " +++ table +++ " table: " +++ errMsg,
                 PROBLEM);
                ("Database: Failed to initialize database."%string, PROBLEM)]
           | None => [("Database: Initialized database successfully."%string, INFO)]
           end
    end in
  LessonsDatabase.m_logger self = logger ++ lines
  /\ LessonsDatabase.db self = file
  /\ (Forall (fun line => snd line = INFO) lines
      <-> open_error x = None /\ lessons_error x = None /\ words_error x = None
          /\ tags_error x = None)
  /\ (forall other : LessonsDatabase.t,
        LessonsDatabase.db (snd (initDatabase x other)) = LessonsDatabase.db other
        /\ (fst (initDatabase x other) = true
            <-> lessons_error x = None /\ words_error x = None /\ tags_error x = None)).
Proof.
  cbn zeta. split; [| split; [| split]].
  - destruct x as [[e0|] [e1|] [e2|] [e3|]]; cbn -[String.append]; unfold log;
      rewrite <- ?app_assoc; reflexivity.
  - destruct x as [[e0|] [e1|] [e2|] [e3|]]; reflexivity.
  - destruct x as [[e0|] [e1|] [e2|] [e3|]]; cbn -[String.append]; split; intros H;
      try (repeat constructor; fail);
      try (decompose [and] H; discriminate);
      exfalso;
      repeat match goal with
             | K : Forall _ (_ :: _) |- _ => inversion K; clear K; subst
             | K : snd (_, PROBLEM) = INFO |- _ => discriminate K
             end.
  - intros other.
    destruct x as [e0 [e1|] [e2|] [e3|]]; cbn -[String.append];
      (split; [reflexivity |]); split; intros H;
      try discriminate H;
      try (decompose [and] H; discriminate);
      repeat split; reflexivity.
Qed.

End LessonsDatabaseSetupFacts.
